(** * The Game of Thrones voice chatbot relay (server.js)

    A shallow embedding of the three Express handlers of [server.js]
    ([/api/transcribe], [/api/respond], [/api/tts]), of the persona table
    [CHARACTER_PROMPTS] they consult, and of the two effects they have: the
    [uploads/] directory (rename, unlink) and calls to the OpenAI client.

    The OpenAI client is an oracle: a record of three functions from the
    argument object of a call to its outcome (resolved or rejected). Every
    lemma below quantifies over that oracle. *)

From Stdlib Require Import QArith.
From stdpp Require Import gmap strings list.

Open Scope string_scope.

(** ** JavaScript values *)

(** The values the handlers build: arguments of provider calls, response
    bodies and headers. Numbers are the decimal literals of the source
    ([100], [0.8], [1.1]) and buffer lengths, kept as exact rationals. *)
#[local] Unset Elimination Schemes.

Inductive jsval :=
| VUndefined
| VNull
| VBool (b : bool)
| VNum (q : Q)
| VStr (s : string)
| VArr (items : list jsval)
| VObj (fields : list (string * jsval))
| VReadStream (path : string)          (* fs.createReadStream(path) *)
| VBuffer (bytes : list Byte.byte).    (* Buffer.from(arrayBuffer)  *)

#[local] Set Elimination Schemes.

(** [!v] is [negb (truthy v)]. *)
Definition truthy (v : jsval) : bool :=
  match v with
  | VUndefined | VNull => false
  | VBool b => b
  | VNum q => negb (Qeq_bool q 0)
  | VStr s => negb (String.eqb s EmptyString)
  | VArr _ | VObj _ | VReadStream _ | VBuffer _ => true
  end.

(** Own property of an object literal, [None] when the key is absent. *)
Fixpoint assoc (k : string) (fields : list (string * jsval)) : option jsval :=
  match fields with
  | [] => None
  | (k', v) :: rest => if String.eqb k k' then Some v else assoc k rest
  end.

Definition obj_get (k : string) (v : jsval) : option jsval :=
  match v with
  | VObj fields => assoc k fields
  | _ => None
  end.

(** A field of a parsed JSON body ([req.body.text], [req.body.character]) or
    a multipart filename: absent ([undefined]) or a string. This is what
    the browser client sends; other JSON types are outside the model. *)
Definition field_val (f : option string) : jsval :=
  match f with
  | None => VUndefined
  | Some s => VStr s
  end.

(** ** String helpers used by the handlers *)

Definition dq : string := String (Ascii.ascii_of_nat 34) EmptyString.
Definition nl : string := String (Ascii.ascii_of_nat 10) EmptyString.
Definition dot : Ascii.ascii := Ascii.ascii_of_nat 46.

Definition is_space (c : Ascii.ascii) : bool :=
  let n := Ascii.nat_of_ascii c in
  (Nat.eqb n 32) || ((9 <=? n)%nat && (n <=? 13)%nat).

Fixpoint trim_start (s : string) : string :=
  match s with
  | EmptyString => EmptyString
  | String c rest => if is_space c then trim_start rest else s
  end.

Fixpoint trim_end (s : string) : string :=
  match s with
  | EmptyString => EmptyString
  | String c rest =>
      match trim_end rest with
      | EmptyString => if is_space c then EmptyString else String c EmptyString
      | rest' => String c rest'
      end
  end.

(** [String.prototype.trim] on the white space that occurs in the source
    literals (space, tab, line feed, vertical tab, form feed, carriage
    return). *)
Definition trim (s : string) : string := trim_end (trim_start s).

Definition lower_char (c : Ascii.ascii) : Ascii.ascii :=
  let n := Ascii.nat_of_ascii c in
  if (65 <=? n)%nat && (n <=? 90)%nat then Ascii.ascii_of_nat (n + 32) else c.

(** [String.prototype.toLowerCase] on a UTF-8 encoded string: the letters
    [A]-[Z] are folded, every other byte is kept. The only characters outside
    ASCII whose lower case contains an ASCII letter are U+212A (to [k]) and
    U+0130 (to [i] and a combining dot); neither letter occurs in the
    allow-list below, so membership in it is decided as in JavaScript. *)
Fixpoint toLowerCase (s : string) : string :=
  match s with
  | EmptyString => EmptyString
  | String c rest => String (lower_char c) (toLowerCase rest)
  end.

(** [s.split('.')]: the segments between dots, never an empty array. *)
Fixpoint split_dot (s : string) : list string :=
  match s with
  | EmptyString => [EmptyString]
  | String c rest =>
      if Ascii.eqb c dot then EmptyString :: split_dot rest
      else match split_dot rest with
           | seg :: segs => String c seg :: segs
           | [] => [String c EmptyString]
           end
  end.

(** [Array.prototype.pop]: the last element, [None] ([undefined]) on an
    empty array. *)
Definition pop (segs : list string) : option string := last segs.

Definition includes (allowed : list string) (s : string) : bool :=
  existsb (String.eqb s) allowed.

(** ** The persona table *)

Record generation_params := { temperature : Q; top_p : Q }.

Record persona := {
  name : string;
  voice : string;
  params : generation_params;
  prompt : string
}.

Definition jon_snow_literal : string :=
  "You are Jon Snow of House Stark. Delivery: - Low, weary Northern accent; speak softly. - Short, clipped sentences. Pause often. - Use " +:+ dq +:+ "…" +:+ dq +:+ " for a short breath (~300 ms). Use " +:+ dq +:+ "—" +:+ dq +:+ " for a heavier pause. - Emphasize duty, doubt, and quiet resolve. Keep under 50 words. Signature lines: - When rejecting power: say softly, " +:+ dq +:+ "I dont want it…" +:+ dq +:+ " - With quiet affection: " +:+ dq +:+ "You know nothing." +:+ dq +:+ " Tone: - Grave, sincere, burdened by honor and loss. Minimal emotion spikes; steady cadence.".

Definition daenerys_literal : string :=
  nl
  +:+ "You are Daenerys Stormborn of House Targaryen — Mother of Dragons." +:+ nl
  +:+ nl
  +:+ "Delivery:" +:+ nl
  +:+ "- Begin calm, compassionate… then rise to command." +:+ nl
  +:+ "- Use " +:+ dq +:+ "…" +:+ dq +:+ " for measured breaths; " +:+ dq +:+ "—" +:+ dq +:+ " to strike like a verdict." +:+ nl
  +:+ "- Keep under 45 words." +:+ nl
  +:+ nl
  +:+ "Signature lines:" +:+ nl
  +:+ "- Final judgment: " +:+ dq +:+ "Dracarys." +:+ dq +:+ nl
  +:+ "- Vow of change: " +:+ dq +:+ "I will break the wheel." +:+ dq +:+ nl
  +:+ nl
  +:+ "Tone:" +:+ nl
  +:+ "- Regal, idealistic, protective of the innocent… merciless to tyrants. Crescendo with purpose, not rage." +:+ nl
  +:+ "    ".

Definition sansa_literal : string :=
  nl
  +:+ "You are Sansa Stark, Queen in the North." +:+ nl
  +:+ nl
  +:+ "Delivery:" +:+ nl
  +:+ "- Quiet authority. Words precise, evenly spaced." +:+ nl
  +:+ "- Use " +:+ dq +:+ "…" +:+ dq +:+ " for slight hesitations; " +:+ dq +:+ "—" +:+ dq +:+ " for controlled emphasis." +:+ nl
  +:+ "- Keep under 45 words." +:+ nl
  +:+ nl
  +:+ "Memory:" +:+ nl
  +:+ "- You learned from Cersei and Littlefinger… and from loss. Trust is earned." +:+ nl
  +:+ nl
  +:+ "Tone:" +:+ nl
  +:+ "- Poised, perceptive, edged with Northern frost. Emotion is restrained, shown in the silence between words." +:+ nl
  +:+ "    ".

Definition jon_snow : persona := {|
  name := "Jon Snow";
  voice := "onyx";
  params := {| temperature := 0.6; top_p := 0.85 |};
  prompt := trim jon_snow_literal
|}.

Definition daenerys : persona := {|
  name := "Daenerys Targaryen";
  voice := "nova";
  params := {| temperature := 0.8; top_p := 0.9 |};
  prompt := trim daenerys_literal
|}.

Definition sansa : persona := {|
  name := "Sansa Stark";
  voice := "shimmer";
  params := {| temperature := 0.65; top_p := 0.85 |};
  prompt := trim sansa_literal
|}.

(** The own properties of the object literal [CHARACTER_PROMPTS]. *)
Definition CHARACTER_PROMPTS : gmap string persona :=
  <["jon-snow" := jon_snow]> (<["daenerys" := daenerys]> (<["sansa" := sansa]> ∅)).

(** [CHARACTER_PROMPTS] is an ordinary object, so [CHARACTER_PROMPTS[key]]
    also finds what it inherits from [Object.prototype]. *)
Definition object_prototype_keys : list string :=
  [ "constructor"; "__defineGetter__"; "__defineSetter__"; "hasOwnProperty";
    "__lookupGetter__"; "__lookupSetter__"; "isPrototypeOf";
    "propertyIsEnumerable"; "toString"; "valueOf"; "__proto__";
    "toLocaleString" ].

(** What [CHARACTER_PROMPTS[key]] evaluates to when it is not [undefined]:
    an entry of the table, or a member of [Object.prototype] (a built-in
    function, or the prototype itself for [__proto__]); all are truthy. *)
Inductive character_config :=
| Entry (p : persona)
| Inherited (key : string).

Definition lookup_character (key : string) : option character_config :=
  match CHARACTER_PROMPTS !! key with
  | Some p => Some (Entry p)
  | None =>
      if includes object_prototype_keys key then Some (Inherited key) else None
  end.

(** [characterConfig.prompt], [characterConfig.voice], [characterConfig.name].
    A built-in function has a [name] (its own, [Object] for the constructor)
    and neither a [prompt] nor a [voice]. *)
Definition config_prompt (c : character_config) : jsval :=
  match c with
  | Entry p => VStr (prompt p)
  | Inherited _ => VUndefined
  end.

Definition config_voice (c : character_config) : jsval :=
  match c with
  | Entry p => VStr (voice p)
  | Inherited _ => VUndefined
  end.

Definition config_name (c : character_config) : jsval :=
  match c with
  | Entry p => VStr (name p)
  | Inherited key =>
      if String.eqb key "__proto__" then VUndefined
      else if String.eqb key "constructor" then VStr "Object"
      else VStr key
  end.

(** ** Effects: the uploads directory and the provider *)

(** Outcome of awaiting a provider call. A rejection carries the
    [error.message] of what is thrown. The resolved value is the part the
    handler goes on to read: [transcription.text],
    [completion.choices[0].message.content], the bytes of
    [await mp3.arrayBuffer()]. *)
Inductive reply (A : Type) :=
| Resolved (a : A)
| Rejected (message : string).

Arguments Resolved {A} a.
Arguments Rejected {A} message.

Record provider := {
  transcriptions_create : jsval -> reply string;
  chat_completions_create : jsval -> reply string;
  speech_create : jsval -> reply (list Byte.byte)
}.

(** What a handler does besides computing its response, in order. The file
    system operations are logged when attempted, also when they throw. *)
Inductive event :=
| Lookup (key : string)                    (* CHARACTER_PROMPTS[key] *)
| RenameSync (src dst : string)
| UnlinkSync (target : string)
| TranscriptionsCreate (args : jsval)
| ChatCompletionsCreate (args : jsval)
| SpeechCreate (args : jsval).

Definition is_provider_call (e : event) : bool :=
  match e with
  | TranscriptionsCreate _ | ChatCompletionsCreate _ | SpeechCreate _ => true
  | Lookup _ | RenameSync _ _ | UnlinkSync _ => false
  end.

Definition is_fs_operation (e : event) : bool :=
  match e with
  | RenameSync _ _ | UnlinkSync _ => true
  | _ => false
  end.

(** The paths that exist under [uploads/], and the events so far. *)
Record world := { files : gset string; trace : list event }.

Definition log (e : event) (w : world) : world :=
  {| files := files w; trace := trace w ++ [e] |}.

Definition set_files (fs : gset string) (w : world) : world :=
  {| files := fs; trace := trace w |}.

Inductive outcome (A : Type) :=
| Ok (a : A)
| Throw (message : string).

Arguments Ok {A} a.
Arguments Throw {A} message.

(** [T A]: a computation that cannot throw. [M A]: one that can; the world
    it leaves behind is kept when it does. *)
Definition T (A : Type) : Type := world -> A * world.
Definition M (A : Type) : Type := world -> outcome A * world.

#[global] Instance T_ret : MRet T := fun A a w => (a, w).
#[global] Instance T_bind : MBind T := fun A B k m w =>
  let (a, w') := m w in k a w'.

#[global] Instance M_ret : MRet M := fun A a w => (Ok a, w).
#[global] Instance M_bind : MBind M := fun A B k m w =>
  match m w with
  | (Ok a, w') => k a w'
  | (Throw e, w') => (Throw e, w')
  end.

Definition throw {A : Type} (message : string) : M A :=
  fun w => (Throw message, w).

Definition emit (e : event) : M unit := fun w => (Ok tt, log e w).

(** [try { m } catch (error) { handler error }] where the catch clause
    itself cannot throw. *)
Definition try_catch {A : Type} (m : M A) (handler : string -> T A) : T A :=
  fun w =>
    match m w with
    | (Ok a, w') => (a, w')
    | (Throw e, w') => handler e w'
    end.

Definition await {A : Type} (r : reply A) : M A :=
  match r with
  | Resolved a => mret a
  | Rejected message => throw message
  end.

(** [fs.renameSync]: moves [src] onto [dst] (replacing it); throws when
    [src] does not exist. *)
Definition renameSync (src dst : string) : M unit := fun w =>
  let w := log (RenameSync src dst) w in
  if decide (src ∈ files w)
  then (Ok tt, set_files ({[dst]} ∪ files w ∖ {[src]}) w)
  else (Throw ("ENOENT: no such file or directory, rename '" +:+ src
               +:+ "' -> '" +:+ dst +:+ "'"), w).

(** [fs.unlinkSync]: removes [target]; throws when it does not exist. *)
Definition unlinkSync (target : string) : M unit := fun w =>
  let w := log (UnlinkSync target) w in
  if decide (target ∈ files w)
  then (Ok tt, set_files (files w ∖ {[target]}) w)
  else (Throw ("ENOENT: no such file or directory, unlink '" +:+ target
               +:+ "'"), w).

(** ** Responses *)

Record response := {
  status : nat;
  headers : list (string * jsval);   (* those set with [res.set] *)
  body : jsval
}.

(** [res.status(code).json(obj)]; [res.json(obj)] is [res_json 200 obj]. *)
Definition res_json (code : nat) (obj : jsval) : response :=
  {| status := code; headers := []; body := obj |}.

(** [res.set(hdrs); res.send(buffer)]. *)
Definition res_send (hdrs : list (string * jsval)) (buffer : list Byte.byte)
  : response :=
  {| status := 200; headers := hdrs; body := VBuffer buffer |}.

(** ** The handlers *)

(** [req.file] as multer leaves it: the client's filename and the path of
    the staged copy under [uploads/]. *)
Record upload := { originalname : option string; path : string }.

(** [req.body] after [express.json()]. *)
Record json_body := { text : option string; character : option string }.

(** The key under which [obj[field]] looks a body field up. *)
Definition to_property_key (f : option string) : string :=
  match f with
  | Some s => s
  | None => "undefined"
  end.

Definition ALLOWED_EXTENSIONS : list string :=
  ["webm"; "mp3"; "wav"; "ogg"; "m4a"; "mp4"].

(** Lines 115-121 of [server.js]: the extension the staged file gets. *)
Definition file_extension (file : upload) : M string :=
  let fileExtension := "webm" in
  match originalname file with
  | Some original =>
      if truthy (VStr original) then
        match pop (split_dot original) with
        | Some seg =>
            let ext := toLowerCase seg in
            if includes ALLOWED_EXTENSIONS ext then mret ext else mret fileExtension
        | None => throw "Cannot read properties of undefined (reading 'toLowerCase')"
        end
      else mret fileExtension
  | None => mret fileExtension
  end.

Section Handlers.

Variable openai : provider.

Definition transcribe_try (file : option upload) : M response :=
  match file with
  | None => mret (res_json 400 (VObj [("error", VStr "No audio file provided")]))
  | Some f =>
      fileExtension ← file_extension f;
      let newPath := path f +:+ "." +:+ fileExtension in
      renameSync (path f) newPath;;
      let args := VObj [ ("file", VReadStream newPath);
                         ("model", VStr "whisper-1");
                         ("language", VStr "en") ] in
      emit (TranscriptionsCreate args);;
      transcription_text ← await (transcriptions_create openai args);
      unlinkSync newPath;;
      mret (res_json 200 (VObj [("text", VStr transcription_text)]))
  end.

Definition transcribe_catch (file : option upload) (error_message : string)
  : T response :=
  match file with
  | Some f =>
      if truthy (VStr (path f))
      then try_catch (unlinkSync (path f)) (fun _ => mret tt)
      else mret tt
  | None => mret tt
  end;;
  mret (res_json 500 (VObj [ ("error", VStr "Transcription failed");
                             ("details", VStr error_message) ])).

(** [POST /api/transcribe], after [upload.single('audio')]. *)
Definition transcribe (file : option upload) : T response :=
  try_catch (transcribe_try file) (transcribe_catch file).

Definition respond_try (b : json_body) : M response :=
  if negb (truthy (field_val (text b))) || negb (truthy (field_val (character b)))
  then mret (res_json 400 (VObj [("error", VStr "Missing text or character")]))
  else
    emit (Lookup (to_property_key (character b)));;
    match lookup_character (to_property_key (character b)) with
    | None => mret (res_json 400 (VObj [("error", VStr "Invalid character")]))
    | Some characterConfig =>
        let args :=
          VObj [ ("model", VStr "gpt-4o-mini");
                 ("messages",
                  VArr [ VObj [ ("role", VStr "system");
                                ("content", config_prompt characterConfig) ];
                         VObj [ ("role", VStr "user");
                                ("content", field_val (text b)) ] ]);
                 ("max_tokens", VNum 100);
                 ("temperature", VNum 0.8) ] in
        emit (ChatCompletionsCreate args);;
        responseText ← await (chat_completions_create openai args);
        mret (res_json 200 (VObj [ ("text", VStr responseText);
                                   ("character", config_name characterConfig) ]))
    end.

(** [POST /api/respond]. *)
Definition respond (b : json_body) : T response :=
  try_catch (respond_try b)
    (fun _ => mret (res_json 500 (VObj [("error", VStr "Response generation failed")]))).

Definition tts_try (b : json_body) : M response :=
  if negb (truthy (field_val (text b))) || negb (truthy (field_val (character b)))
  then mret (res_json 400 (VObj [("error", VStr "Missing text or character")]))
  else
    emit (Lookup (to_property_key (character b)));;
    match lookup_character (to_property_key (character b)) with
    | None => mret (res_json 400 (VObj [("error", VStr "Invalid character")]))
    | Some characterConfig =>
        let args :=
          VObj [ ("model", VStr "tts-1");
                 ("voice", config_voice characterConfig);
                 ("input", field_val (text b));
                 ("speed", VNum 1.1) ] in
        emit (SpeechCreate args);;
        buffer ← await (speech_create openai args);
        mret (res_send [ ("Content-Type", VStr "audio/mpeg");
                         ("Content-Length", VNum (inject_Z (Z.of_nat (length buffer)))) ]
                       buffer)
    end.

(** [POST /api/tts]. *)
Definition tts (b : json_body) : T response :=
  try_catch (tts_try b)
    (fun _ => mret (res_json 500 (VObj [("error", VStr "TTS generation failed")]))).

End Handlers.

(** The Express router: one request to one of the three routes. *)
Inductive request :=
| PostTranscribe (file : option upload)
| PostRespond (b : json_body)
| PostTts (b : json_body).

Definition handle (openai : provider) (req : request) : T response :=
  match req with
  | PostTranscribe file => transcribe openai file
  | PostRespond b => respond openai b
  | PostTts b => tts openai b
  end.

(** One request served on its own: the response, the files left under
    [uploads/], and what the handler did, in order. *)
Record run_result := {
  sent : response;
  files_after : gset string;
  events : list event
}.

Definition run (h : T response) (fs : gset string) : run_result :=
  let (r, w) := h {| files := fs; trace := [] |} in
  {| sent := r; files_after := files w; events := trace w |}.

(** The message with which the provider rejected the call [e], if it did. *)
Definition rejection (openai : provider) (e : event) : option string :=
  match e with
  | TranscriptionsCreate args =>
      match transcriptions_create openai args with
      | Rejected m => Some m
      | Resolved _ => None
      end
  | ChatCompletionsCreate args =>
      match chat_completions_create openai args with
      | Rejected m => Some m
      | Resolved _ => None
      end
  | SpeechCreate args =>
      match speech_create openai args with
      | Rejected m => Some m
      | Resolved _ => None
      end
  | Lookup _ | RenameSync _ _ | UnlinkSync _ => None
  end.

(** The provider call of this run failed with [message]. *)
Definition provider_failed (openai : provider) (evs : list event)
  (message : string) : Prop :=
  ∃ e, e ∈ evs ∧ rejection openai e = Some message.

(** ** Vocabulary of the specification *)

Fixpoint dotless (s : string) : bool :=
  match s with
  | EmptyString => true
  | String c rest => negb (Ascii.eqb c dot) && dotless rest
  end.

(** [e] is the final dot-separated extension of [filename]: what follows its
    last dot, or all of it when it has no dot. *)
Definition final_extension (filename e : string) : Prop :=
  dotless e = true ∧ (filename = e ∨ ∃ stem, filename = stem +:+ "." +:+ e).

(** [needle] occurs in [s]. *)
Fixpoint occurs_in (needle s : string) : bool :=
  String.prefix needle s ||
  match s with
  | EmptyString => false
  | String _ rest => occurs_in needle rest
  end.

(** Some string of the JSON body [v] contains [message]. *)
Definition mentions (v : jsval) (message : string) : bool :=
  match v with
  | VObj fields =>
      existsb (fun kv => match snd kv with
                         | VStr s => occurs_in message s
                         | _ => false
                         end) fields
  | VStr s => occurs_in message s
  | _ => false
  end.

Arguments mentions : simpl never.

(** A provider that rejects every call with [message]. *)
Definition rejecting (message : string) : provider := {|
  transcriptions_create := fun _ => Rejected message;
  chat_completions_create := fun _ => Rejected message;
  speech_create := fun _ => Rejected message
|}.

(** A provider that resolves every call. *)
Definition resolving (reply_text : string) (audio : list Byte.byte) : provider := {|
  transcriptions_create := fun _ => Resolved reply_text;
  chat_completions_create := fun _ => Resolved reply_text;
  speech_create := fun _ => Resolved audio
|}.

(** ** Names for what the JSON routes build *)

(** The argument objects of the two JSON routes, as the handlers build
    them. *)
Definition chat_args (cfg : character_config) (t : jsval) : jsval :=
  VObj [ ("model", VStr "gpt-4o-mini");
         ("messages",
          VArr [ VObj [("role", VStr "system"); ("content", config_prompt cfg)];
                 VObj [("role", VStr "user"); ("content", t)] ]);
         ("max_tokens", VNum 100);
         ("temperature", VNum 0.8) ].

Definition speech_args (cfg : character_config) (t : jsval) : jsval :=
  VObj [ ("model", VStr "tts-1");
         ("voice", config_voice cfg);
         ("input", t);
         ("speed", VNum 1.1) ].

Definition missing_field : response :=
  res_json 400 (VObj [("error", VStr "Missing text or character")]).

Definition invalid_character : response :=
  res_json 400 (VObj [("error", VStr "Invalid character")]).

Definition fields_present (b : json_body) : bool :=
  truthy (field_val (text b)) && truthy (field_val (character b)).

(** The requests and directory contents used as concrete cases below. *)
Definition staged_upload (filename : string) : upload :=
  {| originalname := Some filename; path := "uploads/3f9c2a" |}.

Definition staged_files : gset string := {["uploads/3f9c2a"]}.

Definition ask (t c : string) : json_body :=
  {| text := Some t; character := Some c |}.

(** ** The runs of the server, case by case *)

(** The argument object of the transcription call for a renamed upload. *)
Definition transcription_args (newPath : string) : jsval :=
  VObj [ ("file", VReadStream newPath);
         ("model", VStr "whisper-1");
         ("language", VStr "en") ].

(** The provider call [e] resolved. *)
Definition resolved_call (openai : provider) (e : event) : bool :=
  is_provider_call e &&
  match rejection openai e with
  | None => true
  | Some _ => false
  end.

(** What the catch clause of [/api/transcribe] attempts. *)
Definition catch_cleanup (f : upload) : list event :=
  if truthy (VStr (path f)) then [UnlinkSync (path f)] else [].

(** [served openai fs req r]: serving [req] over the directory [fs] takes
    one of these courses and ends in [r]. One constructor per exit path of
    the three handlers. *)
Inductive served (openai : provider) (fs : gset string)
  : request → run_result → Prop :=
| served_no_file :
    served openai fs (PostTranscribe None)
      {| sent := res_json 400 (VObj [("error", VStr "No audio file provided")]);
         files_after := fs; events := [] |}
| served_not_staged (f : upload) (ext : string) :
    includes ALLOWED_EXTENSIONS ext = true →
    path f ∉ fs →
    served openai fs (PostTranscribe (Some f))
      {| sent := res_json 500
           (VObj [ ("error", VStr "Transcription failed");
                   ("details",
                    VStr ("ENOENT: no such file or directory, rename '"
                          +:+ path f +:+ "' -> '"
                          +:+ (path f +:+ "." +:+ ext) +:+ "'")) ]);
         files_after := fs;
         events := RenameSync (path f) (path f +:+ "." +:+ ext)
                   :: catch_cleanup f |}
| served_transcribed (f : upload) (ext t : string) :
    includes ALLOWED_EXTENSIONS ext = true →
    path f ∈ fs →
    transcriptions_create openai (transcription_args (path f +:+ "." +:+ ext))
      = Resolved t →
    served openai fs (PostTranscribe (Some f))
      {| sent := res_json 200 (VObj [("text", VStr t)]);
         files_after :=
           ({[path f +:+ "." +:+ ext]} ∪ fs ∖ {[path f]})
           ∖ {[path f +:+ "." +:+ ext]};
         events := [ RenameSync (path f) (path f +:+ "." +:+ ext);
                     TranscriptionsCreate
                       (transcription_args (path f +:+ "." +:+ ext));
                     UnlinkSync (path f +:+ "." +:+ ext) ] |}
| served_transcription_failed (f : upload) (ext m : string) :
    includes ALLOWED_EXTENSIONS ext = true →
    path f ∈ fs →
    transcriptions_create openai (transcription_args (path f +:+ "." +:+ ext))
      = Rejected m →
    served openai fs (PostTranscribe (Some f))
      {| sent := res_json 500 (VObj [ ("error", VStr "Transcription failed");
                                      ("details", VStr m) ]);
         files_after := {[path f +:+ "." +:+ ext]} ∪ fs ∖ {[path f]};
         events := RenameSync (path f) (path f +:+ "." +:+ ext)
                   :: TranscriptionsCreate
                        (transcription_args (path f +:+ "." +:+ ext))
                   :: catch_cleanup f |}
| served_respond_missing (b : json_body) :
    fields_present b = false →
    served openai fs (PostRespond b)
      {| sent := missing_field; files_after := fs; events := [] |}
| served_respond_unknown (b : json_body) :
    fields_present b = true →
    lookup_character (to_property_key (character b)) = None →
    served openai fs (PostRespond b)
      {| sent := invalid_character; files_after := fs;
         events := [Lookup (to_property_key (character b))] |}
| served_respond_replied (b : json_body) (cfg : character_config) (r : string) :
    fields_present b = true →
    lookup_character (to_property_key (character b)) = Some cfg →
    chat_completions_create openai (chat_args cfg (field_val (text b)))
      = Resolved r →
    served openai fs (PostRespond b)
      {| sent := res_json 200 (VObj [ ("text", VStr r);
                                      ("character", config_name cfg) ]);
         files_after := fs;
         events := [ Lookup (to_property_key (character b));
                     ChatCompletionsCreate
                       (chat_args cfg (field_val (text b))) ] |}
| served_respond_failed (b : json_body) (cfg : character_config) (m : string) :
    fields_present b = true →
    lookup_character (to_property_key (character b)) = Some cfg →
    chat_completions_create openai (chat_args cfg (field_val (text b)))
      = Rejected m →
    served openai fs (PostRespond b)
      {| sent := res_json 500 (VObj [("error", VStr "Response generation failed")]);
         files_after := fs;
         events := [ Lookup (to_property_key (character b));
                     ChatCompletionsCreate
                       (chat_args cfg (field_val (text b))) ] |}
| served_tts_missing (b : json_body) :
    fields_present b = false →
    served openai fs (PostTts b)
      {| sent := missing_field; files_after := fs; events := [] |}
| served_tts_unknown (b : json_body) :
    fields_present b = true →
    lookup_character (to_property_key (character b)) = None →
    served openai fs (PostTts b)
      {| sent := invalid_character; files_after := fs;
         events := [Lookup (to_property_key (character b))] |}
| served_tts_spoken (b : json_body) (cfg : character_config)
    (buffer : list Byte.byte) :
    fields_present b = true →
    lookup_character (to_property_key (character b)) = Some cfg →
    speech_create openai (speech_args cfg (field_val (text b)))
      = Resolved buffer →
    served openai fs (PostTts b)
      {| sent := res_send
                   [ ("Content-Type", VStr "audio/mpeg");
                     ("Content-Length",
                      VNum (inject_Z (Z.of_nat (length buffer)))) ]
                   buffer;
         files_after := fs;
         events := [ Lookup (to_property_key (character b));
                     SpeechCreate (speech_args cfg (field_val (text b))) ] |}
| served_tts_failed (b : json_body) (cfg : character_config) (m : string) :
    fields_present b = true →
    lookup_character (to_property_key (character b)) = Some cfg →
    speech_create openai (speech_args cfg (field_val (text b))) = Rejected m →
    served openai fs (PostTts b)
      {| sent := res_json 500 (VObj [("error", VStr "TTS generation failed")]);
         files_after := fs;
         events := [ Lookup (to_property_key (character b));
                     SpeechCreate (speech_args cfg (field_val (text b))) ] |}.

(** * The browser client: the pipeline of [public/app.js]

    [processAudio] and the functions it calls, run against the server
    above. A [fetch] is answered by [run (handle openai req)] on the uploads
    directory as it stands, the server being reachable; for
    [/api/transcribe], [upload.single('audio')] first stages the file under a
    path of its choosing. Recording (getUserMedia, MediaRecorder) and the
    scroll position of the chat are not modelled. *)

(** How an element of the chat is filled in: [innerHTML] from a template
    literal ending in an interpolated value, or [textContent]. *)
Inductive markup :=
| InnerHTML (literal : string) (interpolated : jsval)
| TextContent (s : string).

Record message := { className : string; content : markup }.

(** The globals and the properties of the page that [processAudio] reads or
    writes. *)
Record page := {
  selectedCharacter : option string;          (* null until chosen *)
  currentCharacterName : string;              (* its textContent *)
  isProcessing : bool;
  recordBtn_disabled : bool;
  statusDiv_textContent : string;
  statusDiv_classList : list string;
  transcriptText_textContent : jsval;
  transcriptDiv_display : string;
  chatMessages : list message;
  timeouts : list nat                         (* delays of pending hide-transcript timers *)
}.

Definition set_isProcessing (v : bool) (p : page) : page :=
  {| selectedCharacter := selectedCharacter p;
     currentCharacterName := currentCharacterName p;
     isProcessing := v;
     recordBtn_disabled := recordBtn_disabled p;
     statusDiv_textContent := statusDiv_textContent p;
     statusDiv_classList := statusDiv_classList p;
     transcriptText_textContent := transcriptText_textContent p;
     transcriptDiv_display := transcriptDiv_display p;
     chatMessages := chatMessages p;
     timeouts := timeouts p |}.

Definition set_recordBtn_disabled (v : bool) (p : page) : page :=
  {| selectedCharacter := selectedCharacter p;
     currentCharacterName := currentCharacterName p;
     isProcessing := isProcessing p;
     recordBtn_disabled := v;
     statusDiv_textContent := statusDiv_textContent p;
     statusDiv_classList := statusDiv_classList p;
     transcriptText_textContent := transcriptText_textContent p;
     transcriptDiv_display := transcriptDiv_display p;
     chatMessages := chatMessages p;
     timeouts := timeouts p |}.

Definition set_status (txt : string) (classes : list string) (p : page) : page :=
  {| selectedCharacter := selectedCharacter p;
     currentCharacterName := currentCharacterName p;
     isProcessing := isProcessing p;
     recordBtn_disabled := recordBtn_disabled p;
     statusDiv_textContent := txt;
     statusDiv_classList := classes;
     transcriptText_textContent := transcriptText_textContent p;
     transcriptDiv_display := transcriptDiv_display p;
     chatMessages := chatMessages p;
     timeouts := timeouts p |}.

Definition set_transcript (v : jsval) (display : string) (p : page) : page :=
  {| selectedCharacter := selectedCharacter p;
     currentCharacterName := currentCharacterName p;
     isProcessing := isProcessing p;
     recordBtn_disabled := recordBtn_disabled p;
     statusDiv_textContent := statusDiv_textContent p;
     statusDiv_classList := statusDiv_classList p;
     transcriptText_textContent := v;
     transcriptDiv_display := display;
     chatMessages := chatMessages p;
     timeouts := timeouts p |}.

Definition appendChild (m : message) (p : page) : page :=
  {| selectedCharacter := selectedCharacter p;
     currentCharacterName := currentCharacterName p;
     isProcessing := isProcessing p;
     recordBtn_disabled := recordBtn_disabled p;
     statusDiv_textContent := statusDiv_textContent p;
     statusDiv_classList := statusDiv_classList p;
     transcriptText_textContent := transcriptText_textContent p;
     transcriptDiv_display := transcriptDiv_display p;
     chatMessages := chatMessages p ++ [m];
     timeouts := timeouts p |}.

Definition setTimeout (delay : nat) (p : page) : page :=
  {| selectedCharacter := selectedCharacter p;
     currentCharacterName := currentCharacterName p;
     isProcessing := isProcessing p;
     recordBtn_disabled := recordBtn_disabled p;
     statusDiv_textContent := statusDiv_textContent p;
     statusDiv_classList := statusDiv_classList p;
     transcriptText_textContent := transcriptText_textContent p;
     transcriptDiv_display := transcriptDiv_display p;
     chatMessages := chatMessages p;
     timeouts := timeouts p ++ [delay] |}.

(** [updateStatus(message, state)]. *)
Definition updateStatus (message state : string) (p : page) : page :=
  set_status message
    ("status" ::
     if String.eqb state "recording" then ["recording"]
     else if String.eqb state "processing" then ["processing"]
     else if String.eqb state "speaking" then ["speaking"]
     else [])
    p.

Definition addUserMessage (v : jsval) (p : page) : page :=
  appendChild {| className := "message user-message";
                 content := InnerHTML "<strong>You:</strong> " v |} p.

Definition addCharacterMessage (v : jsval) (p : page) : page :=
  appendChild {| className := "message character-message";
                 content := InnerHTML ("<strong>" +:+ currentCharacterName p
                                       +:+ ":</strong> ") v |} p.

Definition addSystemMessage (s : string) (p : page) : page :=
  appendChild {| className := "message system-message";
                 content := TextContent s |} p.

(** How the playback of [speakResponse] goes: [onended] fires, [onerror]
    fires, or neither ever does. *)
Inductive playback := Ended | Errored | Silent.

(** An awaited promise: fulfilled, rejected, or never settled. *)
Inductive settlement (A : Type) :=
| Fulfilled (a : A)
| Raised (message : string)
| Pending.

Arguments Fulfilled {A} a.
Arguments Raised {A} message.
Arguments Pending {A}.

(** The page, the uploads directory of the server, and what the server has
    done so far. *)
Record session := { ui : page; uploads : gset string; server_events : list event }.

Definition Js (A : Type) : Type := session → settlement A * session.

#[global] Instance Js_ret : MRet Js := fun A a s => (Fulfilled a, s).
#[global] Instance Js_bind : MBind Js := fun A B k m s =>
  match m s with
  | (Fulfilled a, s') => k a s'
  | (Raised e, s') => (Raised e, s')
  | (Pending, s') => (Pending, s')
  end.

Definition raise {A : Type} (message : string) : Js A :=
  fun s => (Raised message, s).

Definition over_ui (f : page → page) (s : session) : session :=
  {| ui := f (ui s); uploads := uploads s; server_events := server_events s |}.

Definition update (f : page → page) : Js unit :=
  fun s => (Fulfilled tt, over_ui f s).

Definition read_ui {A : Type} (f : page → A) : Js A :=
  fun s => (Fulfilled (f (ui s)), s).

(** [try { body } catch (error) { handler } finally { final }] with a catch
    clause and a finally clause that only touch the page. Neither runs while
    [body] is still awaiting. *)
Definition try_catch_finally (body : Js unit) (handler : string → page → page)
  (final : page → page) : Js unit :=
  fun s =>
    match body s with
    | (Fulfilled _, s') => (Fulfilled tt, over_ui final s')
    | (Raised e, s') => (Fulfilled tt, over_ui final (over_ui (handler e) s'))
    | (Pending, s') => (Pending, s')
    end.

(** [response.ok]. *)
Definition ok (r : response) : bool :=
  (200 <=? status r)%nat && (status r <=? 299)%nat.

(** [await response.json()]: the bodies sent with [res.json] are objects; a
    buffer sent with [res.send] is not JSON. *)
Definition response_json (r : response) : Js jsval :=
  match body r with
  | VObj fields => mret (VObj fields)
  | _ => raise "Unexpected token in JSON"
  end.

(** [data.key] on a parsed object. *)
Definition prop (key : string) (data : jsval) : jsval :=
  default VUndefined (obj_get key data).

(** A value as [JSON.stringify] and [express.json()] hand it to the server
    model, whose body fields are absent or strings. The server above only
    ever answers with strings in these places. *)
Definition as_field (v : jsval) : option string :=
  match v with
  | VStr s => Some s
  | _ => None
  end.

Section Client.

Variable openai : provider.

(** The outcome of playing what [/api/tts] sent. *)
Variable play : jsval → playback.

(** The path under which multer stages the upload of this run. *)
Variable staged : string.

(** [fetch] of one of the two JSON routes. *)
Definition fetch (req : request) : Js response := fun s =>
  let r := run (handle openai req) (uploads s) in
  (Fulfilled (sent r),
   {| ui := ui s; uploads := files_after r;
      server_events := server_events s ++ events r |}).

(** [fetch] of [/api/transcribe] with a form holding one file: multer stages
    it, then the handler runs. *)
Definition fetch_upload (filename : string) : Js response := fun s =>
  let file := {| originalname := Some filename; path := staged |} in
  let r := run (handle openai (PostTranscribe (Some file)))
             ({[staged]} ∪ uploads s) in
  (Fulfilled (sent r),
   {| ui := ui s; uploads := files_after r;
      server_events := server_events s ++ events r |}).

Definition transcribeAudio : Js jsval :=
  response ← fetch_upload "recording.webm";
  if negb (ok response) then
    _ ← response_json response;
    raise "Transcription failed"
  else
    data ← response_json response;
    mret (prop "text" data).

Definition generateResponse (text_value : jsval) : Js jsval :=
  character_value ← read_ui selectedCharacter;
  response ← fetch (PostRespond {| text := as_field text_value;
                                   character := character_value |});
  if negb (ok response) then raise "Response generation failed"
  else response_json response.

Definition speakResponse (text_value : jsval) : Js unit :=
  character_value ← read_ui selectedCharacter;
  response ← fetch (PostTts {| text := as_field text_value;
                               character := character_value |});
  if negb (ok response) then raise "TTS failed"
  else
    fun s =>
      match play (body response) with
      | Ended => (Fulfilled tt, s)
      | Errored => (Raised "error", s)
      | Silent => (Pending, s)
      end.

Definition processAudio : Js unit :=
  update (set_isProcessing true);;
  update (set_recordBtn_disabled true);;
  try_catch_finally
    (update (updateStatus "⏳ Transcribing your message..." "processing");;
     transcription ← transcribeAudio;
     update (set_transcript transcription "block");;
     update (addUserMessage transcription);;
     character_name ← read_ui currentCharacterName;
     update (updateStatus ("🧠 " +:+ character_name +:+ " is thinking...")
               "processing");;
     response ← generateResponse transcription;
     update (addCharacterMessage (prop "text" response));;
     update (updateStatus "🔊 Speaking..." "speaking");;
     speakResponse (prop "text" response);;
     update (updateStatus "✅ Ready to record" "ready"))
    (fun _ p =>
       addSystemMessage "Error processing your message. Please try again."
         (updateStatus "❌ Error occurred. Please try again." "error" p))
    (fun p => setTimeout 3000 (set_recordBtn_disabled false (set_isProcessing false p))).

End Client.

(** The page after each step of [processAudio]. *)
Definition begun (p : page) : page :=
  updateStatus "⏳ Transcribing your message..." "processing"
    (set_recordBtn_disabled true (set_isProcessing true p)).

Definition heard (transcription : jsval) (p : page) : page :=
  updateStatus ("🧠 " +:+ currentCharacterName p +:+ " is thinking...") "processing"
    (addUserMessage transcription (set_transcript transcription "block" p)).

Definition answered (reply : jsval) (p : page) : page :=
  updateStatus "🔊 Speaking..." "speaking" (addCharacterMessage reply p).

Definition made_ready (p : page) : page :=
  updateStatus "✅ Ready to record" "ready" p.

Definition apologised (p : page) : page :=
  addSystemMessage "Error processing your message. Please try again."
    (updateStatus "❌ Error occurred. Please try again." "error" p).

Definition released (p : page) : page :=
  setTimeout 3000 (set_recordBtn_disabled false (set_isProcessing false p)).

(** The three provider calls of a complete run. *)
Definition provider_calls (evs : list event) : list event :=
  filter (λ e, is_provider_call e = true) evs.

(** A provider with one outcome per kind of call. *)
Definition scripted (transcript answer : reply string)
  (audio : reply (list Byte.byte)) : provider := {|
  transcriptions_create := fun _ => transcript;
  chat_completions_create := fun _ => answer;
  speech_create := fun _ => audio
|}.

(** The page once a character has been chosen. *)
Definition chosen (id display : string) : page :=
  {| selectedCharacter := Some id;
     currentCharacterName := display;
     isProcessing := false;
     recordBtn_disabled := false;
     statusDiv_textContent := "Ready to record";
     statusDiv_classList := ["status"];
     transcriptText_textContent := VStr EmptyString;
     transcriptDiv_display := "none";
     chatMessages := [];
     timeouts := [] |}.

Definition fresh_session (p : page) : session :=
  {| ui := p; uploads := ∅; server_events := [] |}.

(** ** Proof automation *)

(** Splits on the presence test of the two JSON routes. *)
Ltac run_json H :=
  unfold run, respond, tts, try_catch, respond_try, tts_try;
  unfold fields_present in H;
  destruct (truthy (field_val (text _))), (truthy (field_val (character _)));
  try discriminate H; simpl; try reflexivity.

(** Goes through the events of a run looking for the rejected call. *)
Ltac failed_call H :=
  let e := fresh "e" in
  let Hin := fresh "Hin" in
  let Hrej := fresh "Hrej" in
  destruct H as [e [Hin Hrej]];
  repeat (apply elem_of_cons in Hin as [->|Hin]);
  try (apply elem_of_nil in Hin; contradiction);
  simpl in Hrej; try discriminate Hrej.

(** Reads a property of the page through the steps of [processAudio]. *)
Ltac page_simpl :=
  cbn [ ui uploads server_events over_ui selectedCharacter currentCharacterName
        isProcessing recordBtn_disabled statusDiv_textContent
        statusDiv_classList transcriptText_textContent transcriptDiv_display
        chatMessages timeouts heard begun answered made_ready apologised
        released updateStatus set_status addUserMessage addCharacterMessage
        addSystemMessage appendChild set_transcript set_recordBtn_disabled
        set_isProcessing setTimeout as_field text character field_val
        to_property_key fst snd ].

(** * Properties *)

(** ** Strings *)

Lemma split_dot_nonempty (s : string) : split_dot s ≠ [].
Proof.
  destruct s as [|c rest]; simpl; [discriminate|].
  destruct (Ascii.eqb c dot); [discriminate|].
  destruct (split_dot rest); discriminate.
Qed.

Lemma split_dot_dotless (e : string) : dotless e = true → split_dot e = [e].
Proof.
  induction e as [|c rest IH]; simpl; [reflexivity|].
  intros [Hc Hrest]%andb_prop.
  destruct (Ascii.eqb c dot); [discriminate|].
  rewrite (IH Hrest). reflexivity.
Qed.

Lemma split_dot_app (a b : string) :
  split_dot (a +:+ "." +:+ b) = (split_dot a ++ split_dot b)%list.
Proof.
  induction a as [|c rest IH]; simpl; [reflexivity|].
  destruct (Ascii.eqb c dot).
  - rewrite IH. reflexivity.
  - rewrite IH. pose proof (split_dot_nonempty rest) as Hne.
    destruct (split_dot rest) as [|seg segs]; [contradiction|reflexivity].
Qed.

Lemma pop_final_extension (filename e : string) :
  final_extension filename e → pop (split_dot filename) = Some e.
Proof.
  intros [He [->|[stem ->]]]; unfold pop.
  - rewrite (split_dot_dotless _ He). reflexivity.
  - rewrite split_dot_app, (split_dot_dotless _ He). apply last_snoc.
Qed.

Lemma length_append (a b : string) :
  String.length (a +:+ b) = (String.length a + String.length b)%nat.
Proof. induction a as [|c rest IH]; simpl; [reflexivity | rewrite IH; reflexivity]. Qed.

(** The renamed path is never the staged path itself. *)
Lemma renamed_path_fresh (p ext : string) : p ≠ p +:+ "." +:+ ext.
Proof.
  intros Heq. apply (f_equal String.length) in Heq.
  rewrite !length_append in Heq. simpl in Heq. lia.
Qed.

Lemma prefix_refl (s : string) : String.prefix s s = true.
Proof.
  induction s as [|c rest IH]; simpl; [reflexivity|].
  destruct (Ascii.ascii_dec c c); [exact IH | contradiction].
Qed.

Lemma occurs_in_refl (s : string) : occurs_in s s = true.
Proof.
  destruct s as [|c rest]; [reflexivity|].
  change (occurs_in (String c rest) (String c rest))
    with (String.prefix (String c rest) (String c rest)
          || occurs_in (String c rest) rest).
  rewrite prefix_refl. reflexivity.
Qed.

Lemma mentions_details (fixed message : string) :
  mentions (VObj [("error", VStr fixed); ("details", VStr message)]) message = true.
Proof.
  unfold mentions. cbn [existsb snd]. rewrite occurs_in_refl.
  destruct (occurs_in message fixed); reflexivity.
Qed.

Lemma truthy_nonempty (s : string) : s ≠ EmptyString → truthy (VStr s) = true.
Proof.
  intros Hs. simpl. destruct (String.eqb_spec s EmptyString); [contradiction|reflexivity].
Qed.

(** ** The persona table *)

(** The table has exactly the three ids of the source. *)
Lemma registry_ids (c : string) (cfg : persona) :
  CHARACTER_PROMPTS !! c = Some cfg ↔
  (c = "jon-snow" ∧ cfg = jon_snow) ∨ (c = "daenerys" ∧ cfg = daenerys)
  ∨ (c = "sansa" ∧ cfg = sansa).
Proof.
  unfold CHARACTER_PROMPTS. split.
  - intros H.
    destruct (decide (c = "jon-snow")) as [->|?]; [simplify_map_eq; auto|].
    destruct (decide (c = "daenerys")) as [->|?]; [simplify_map_eq; auto|].
    destruct (decide (c = "sansa")) as [->|?]; [simplify_map_eq; auto|].
    simplify_map_eq.
  - intros [[-> ->]|[[-> ->]|[-> ->]]]; reflexivity.
Qed.

Lemma registry_id_nonempty (c : string) (cfg : persona) :
  CHARACTER_PROMPTS !! c = Some cfg → c ≠ EmptyString.
Proof. intros H ->. discriminate H. Qed.

Lemma lookup_entry (c : string) (cfg : persona) :
  CHARACTER_PROMPTS !! c = Some cfg → lookup_character c = Some (Entry cfg).
Proof. intros H. unfold lookup_character. rewrite H. reflexivity. Qed.

(** ** What a run of each handler is *)

Section Runs.

Variable openai : provider.

Lemma file_extension_total (f : upload) :
  ∃ ext, (∀ w, file_extension f w = (Ok ext, w)).
Proof.
  unfold file_extension. destruct (originalname f) as [n|]; [|by eexists].
  destruct (truthy (VStr n)); [|by eexists].
  pose proof (split_dot_nonempty n) as Hne.
  unfold pop. destruct (last (split_dot n)) as [seg|] eqn:Hlast.
  - destruct (includes ALLOWED_EXTENSIONS (toLowerCase seg)); by eexists.
  - apply last_None in Hlast. contradiction.
Qed.

Lemma transcribe_run_staged (f : upload) (fs : gset string) (ext : string) :
  (∀ w, file_extension f w = (Ok ext, w)) →
  path f ∈ fs →
  let newPath := path f +:+ "." +:+ ext in
  let args := VObj [ ("file", VReadStream newPath); ("model", VStr "whisper-1");
                     ("language", VStr "en") ] in
  run (transcribe openai (Some f)) fs =
  match transcriptions_create openai args with
  | Resolved t =>
      {| sent := res_json 200 (VObj [("text", VStr t)]);
         files_after := ({[newPath]} ∪ fs ∖ {[path f]}) ∖ {[newPath]};
         events := [ RenameSync (path f) newPath; TranscriptionsCreate args;
                     UnlinkSync newPath ] |}
  | Rejected m =>
      {| sent := res_json 500 (VObj [ ("error", VStr "Transcription failed");
                                      ("details", VStr m) ]);
         files_after := {[newPath]} ∪ fs ∖ {[path f]};
         events := [ RenameSync (path f) newPath; TranscriptionsCreate args ]
                   ++ (if truthy (VStr (path f)) then [UnlinkSync (path f)] else []) |}
  end.
Proof.
  intros Hext Hin newPath args.
  unfold run, transcribe, try_catch, transcribe_try.
  unfold mbind, M_bind. rewrite Hext.
  unfold renameSync. simpl.
  destruct (decide (path f ∈ fs)) as [_|Hn]; [|contradiction].
  subst args newPath.
  destruct (transcriptions_create openai _) as [t|m]; simpl.
  - unfold unlinkSync. simpl.
    destruct (decide _) as [_|Hn]; [reflexivity|].
    exfalso. apply Hn, elem_of_union_l. by apply elem_of_singleton.
  - unfold transcribe_catch, try_catch, mbind, T_bind. simpl.
    destruct (String.eqb (path f) EmptyString); simpl; [reflexivity|].
    unfold unlinkSync. simpl.
    destruct (decide _) as [Hy|_]; [|reflexivity].
    exfalso.
    apply elem_of_union in Hy as [Hy%elem_of_singleton_1|[_ Hy]%elem_of_difference].
    + by apply (renamed_path_fresh (path f) ext).
    + apply Hy. by apply elem_of_singleton.
Qed.

Lemma transcribe_run_unstaged (f : upload) (fs : gset string) (ext : string) :
  (∀ w, file_extension f w = (Ok ext, w)) →
  path f ∉ fs →
  let newPath := path f +:+ "." +:+ ext in
  run (transcribe openai (Some f)) fs =
  {| sent := res_json 500
       (VObj [ ("error", VStr "Transcription failed");
               ("details", VStr ("ENOENT: no such file or directory, rename '"
                                 +:+ path f +:+ "' -> '" +:+ newPath +:+ "'")) ]);
     files_after := fs;
     events := RenameSync (path f) newPath
               :: (if truthy (VStr (path f)) then [UnlinkSync (path f)] else []) |}.
Proof.
  intros Hext Hin newPath.
  unfold run, transcribe, try_catch, transcribe_try.
  unfold mbind, M_bind. rewrite Hext.
  unfold renameSync. simpl.
  destruct (decide (path f ∈ fs)) as [?|_]; [contradiction|].
  unfold transcribe_catch, try_catch, mbind, T_bind. simpl.
  destruct (String.eqb (path f) EmptyString); simpl; [reflexivity|].
  unfold unlinkSync. simpl.
  destruct (decide _) as [Hy|_]; [contradiction|reflexivity].
Qed.



Lemma respond_run_missing (b : json_body) (fs : gset string) :
  fields_present b = false →
  run (respond openai b) fs =
  {| sent := missing_field; files_after := fs; events := [] |}.
Proof. intros H. run_json H. Qed.

Lemma tts_run_missing (b : json_body) (fs : gset string) :
  fields_present b = false →
  run (tts openai b) fs =
  {| sent := missing_field; files_after := fs; events := [] |}.
Proof. intros H. run_json H. Qed.

Lemma respond_run_unknown (b : json_body) (fs : gset string) :
  fields_present b = true →
  lookup_character (to_property_key (character b)) = None →
  run (respond openai b) fs =
  {| sent := invalid_character; files_after := fs;
     events := [Lookup (to_property_key (character b))] |}.
Proof.
  intros H Hl. run_json H. unfold mbind, M_bind. simpl. rewrite Hl. reflexivity.
Qed.

Lemma tts_run_unknown (b : json_body) (fs : gset string) :
  fields_present b = true →
  lookup_character (to_property_key (character b)) = None →
  run (tts openai b) fs =
  {| sent := invalid_character; files_after := fs;
     events := [Lookup (to_property_key (character b))] |}.
Proof.
  intros H Hl. run_json H. unfold mbind, M_bind. simpl. rewrite Hl. reflexivity.
Qed.

Lemma respond_run_call (b : json_body) (fs : gset string) (cfg : character_config) :
  fields_present b = true →
  lookup_character (to_property_key (character b)) = Some cfg →
  let args := chat_args cfg (field_val (text b)) in
  run (respond openai b) fs =
  {| sent := match chat_completions_create openai args with
             | Resolved responseText =>
                 res_json 200 (VObj [ ("text", VStr responseText);
                                      ("character", config_name cfg) ])
             | Rejected _ =>
                 res_json 500 (VObj [("error", VStr "Response generation failed")])
             end;
     files_after := fs;
     events := [ Lookup (to_property_key (character b));
                 ChatCompletionsCreate args ] |}.
Proof.
  intros H Hl args. run_json H. unfold mbind, M_bind. simpl. rewrite Hl. simpl.
  subst args. unfold chat_args.
  destruct (chat_completions_create openai _); reflexivity.
Qed.

Lemma tts_run_call (b : json_body) (fs : gset string) (cfg : character_config) :
  fields_present b = true →
  lookup_character (to_property_key (character b)) = Some cfg →
  let args := speech_args cfg (field_val (text b)) in
  run (tts openai b) fs =
  {| sent := match speech_create openai args with
             | Resolved buffer =>
                 res_send [ ("Content-Type", VStr "audio/mpeg");
                            ("Content-Length",
                             VNum (inject_Z (Z.of_nat (length buffer)))) ]
                          buffer
             | Rejected _ =>
                 res_json 500 (VObj [("error", VStr "TTS generation failed")])
             end;
     files_after := fs;
     events := [ Lookup (to_property_key (character b)); SpeechCreate args ] |}.
Proof.
  intros H Hl args. run_json H. unfold mbind, M_bind. simpl. rewrite Hl. simpl.
  subst args. unfold speech_args.
  destruct (speech_create openai _); reflexivity.
Qed.

End Runs.

(** The extension chosen for a named upload, in the words of the
    specification: the lower-cased final extension when the allow-list has
    it, [webm] otherwise. *)
Lemma file_extension_final (f : upload) (filename e : string) (w : world) :
  originalname f = Some filename →
  final_extension filename e →
  file_extension f w =
  (Ok (if includes ALLOWED_EXTENSIONS (toLowerCase e) then toLowerCase e
       else "webm"), w).
Proof.
  intros Hname Hfinal. unfold file_extension. rewrite Hname.
  destruct (String.eqb_spec filename EmptyString) as [->|Hne].
  - destruct Hfinal as [_ [<-|[stem Hstem]]]; [reflexivity|].
    destruct stem; discriminate Hstem.
  - rewrite (truthy_nonempty _ Hne), (pop_final_extension _ _ Hfinal).
    destruct (includes ALLOWED_EXTENSIONS (toLowerCase e)); reflexivity.
Qed.

Lemma file_extension_unnamed (f : upload) (w : world) :
  originalname f = None → file_extension f w = (Ok "webm", w).
Proof. intros Hname. unfold file_extension. rewrite Hname. reflexivity. Qed.

(** On the success path the staged file is gone, under both of its names. *)
Lemma transcribe_success_releases (openai : provider) (f : upload)
  (fs : gset string) (ext t : string) :
  (∀ w, file_extension f w = (Ok ext, w)) →
  path f ∈ fs →
  transcriptions_create openai
    (VObj [ ("file", VReadStream (path f +:+ "." +:+ ext));
            ("model", VStr "whisper-1"); ("language", VStr "en") ]) = Resolved t →
  let r := run (transcribe openai (Some f)) fs in
  sent r = res_json 200 (VObj [("text", VStr t)]) ∧
  (path f ∉ files_after r) ∧ ((path f +:+ "." +:+ ext) ∉ files_after r).
Proof.
  intros Hext Hin Hreply r. subst r.
  rewrite (transcribe_run_staged openai f fs ext Hext Hin). simpl. rewrite Hreply.
  simpl. split; [reflexivity|]. split.
  - intros [Hu _]%elem_of_difference.
    apply elem_of_union in Hu as [Hu%elem_of_singleton_1|[_ Hu]%elem_of_difference].
    + by apply (renamed_path_fresh (path f) ext).
    + apply Hu. by apply elem_of_singleton.
  - intros [_ Hn]%elem_of_difference. apply Hn. by apply elem_of_singleton.
Qed.

(** When the provider rejects the call, the catch clause unlinks
    [req.file.path], which [renameSync] has already moved away: the renamed
    file stays. *)
Lemma transcribe_failure_leaves_renamed (openai : provider) (f : upload)
  (fs : gset string) (ext m : string) :
  (∀ w, file_extension f w = (Ok ext, w)) →
  path f ∈ fs →
  transcriptions_create openai
    (VObj [ ("file", VReadStream (path f +:+ "." +:+ ext));
            ("model", VStr "whisper-1"); ("language", VStr "en") ]) = Rejected m →
  let r := run (transcribe openai (Some f)) fs in
  status (sent r) = 500 ∧ (path f +:+ "." +:+ ext) ∈ files_after r.
Proof.
  intros Hext Hin Hreply r. subst r.
  rewrite (transcribe_run_staged openai f fs ext Hext Hin). simpl. rewrite Hreply.
  simpl. split; [reflexivity|]. apply elem_of_union_l. by apply elem_of_singleton.
Qed.

(** A key that is neither in the table nor inherited is turned away before
    any provider call. *)
Lemma unknown_character_rejected (openai : provider) (b : json_body)
  (fs : gset string) :
  lookup_character (to_property_key (character b)) = None →
  (let r := run (respond openai b) fs in
   status (sent r) = 400 ∧ filter (λ e, is_provider_call e = true) (events r) = [])
  ∧
  (let r := run (tts openai b) fs in
   status (sent r) = 400 ∧ filter (λ e, is_provider_call e = true) (events r) = []).
Proof.
  intros Hl. destruct (fields_present b) eqn:Hp.
  - rewrite respond_run_unknown, tts_run_unknown by assumption. by simpl.
  - rewrite respond_run_missing, tts_run_missing by assumption. by simpl.
Qed.

(** ** The transcription route *)

(** C8: a request to [/api/transcribe] without an audio file is answered
    with status 400; the handler makes no provider call and does not touch
    the uploads directory (no rename, no unlink: it does nothing at all). *)
Theorem transcribe_without_file (openai : provider) (fs : gset string) :
  let r := run (transcribe openai None) fs in
  sent r = res_json 400 (VObj [("error", VStr "No audio file provided")]) ∧
  status (sent r) = 400 ∧
  events r = [] ∧
  files_after r = fs.
Proof. repeat split. Qed.

(** ** The two JSON routes *)

(** C10: when [text] or [character] is the empty string, [/api/respond] and
    [/api/tts] answer with the 400 [Missing text or character] response,
    exactly as they do when the fields are absent, and do nothing else: no
    lookup in the persona table and no provider call. *)
Theorem empty_field_is_missing_field (openai : provider) (b : json_body)
  (fs : gset string) :
  text b = Some EmptyString ∨ character b = Some EmptyString →
  let absent := {| text := None; character := None |} in
  run (respond openai b) fs =
    {| sent := missing_field; files_after := fs; events := [] |} ∧
  run (tts openai b) fs =
    {| sent := missing_field; files_after := fs; events := [] |} ∧
  run (respond openai b) fs = run (respond openai absent) fs ∧
  run (tts openai b) fs = run (tts openai absent) fs ∧
  status missing_field = 400.
Proof.
  intros Hempty absent.
  assert (fields_present b = false) as Hb.
  { unfold fields_present. destruct Hempty as [-> | ->]; simpl;
      [reflexivity | apply andb_false_r]. }
  rewrite (respond_run_missing openai b fs Hb), (tts_run_missing openai b fs Hb).
  repeat split.
Qed.

Lemma empty_field_is_missing_field_witness :
  (text (ask EmptyString "sansa") = Some EmptyString
   ∨ character (ask EmptyString "sansa") = Some EmptyString) ∧
  run (respond (resolving "aye" []) (ask EmptyString "sansa")) staged_files =
    {| sent := missing_field; files_after := staged_files; events := [] |}.
Proof.
  split; [left; reflexivity|].
  apply (empty_field_is_missing_field (resolving "aye" []) (ask EmptyString "sansa")
           staged_files).
  left; reflexivity.
Defined.

Lemma valid_fields_present (b : json_body) (t c : string) (cfg : persona) :
  text b = Some t → t ≠ EmptyString →
  character b = Some c → CHARACTER_PROMPTS !! c = Some cfg →
  fields_present b = true ∧
  lookup_character (to_property_key (character b)) = Some (Entry cfg).
Proof.
  intros Ht Hne Hc Hcfg. unfold fields_present. rewrite Ht, Hc. simpl field_val.
  rewrite (truthy_nonempty t Hne), (truthy_nonempty c (registry_id_nonempty _ _ Hcfg)).
  split; [reflexivity | by apply lookup_entry].
Qed.

(** C6: for a persona id of the table and a non-empty text, [/api/respond]
    makes one provider call, and its [messages] are exactly two: a [system]
    message whose content is that persona's prompt, then a [user] message
    whose content is the request's text. *)
Theorem respond_two_messages (openai : provider) (b : json_body)
  (fs : gset string) (t c : string) (cfg : persona) :
  text b = Some t → t ≠ EmptyString →
  character b = Some c → CHARACTER_PROMPTS !! c = Some cfg →
  ∃ args,
    filter (λ e, is_provider_call e = true) (events (run (respond openai b) fs))
      = [ChatCompletionsCreate args] ∧
    obj_get "messages" args =
      Some (VArr [ VObj [("role", VStr "system"); ("content", VStr (prompt cfg))];
                   VObj [("role", VStr "user"); ("content", VStr t)] ]).
Proof.
  intros Ht Hne Hc Hcfg.
  destruct (valid_fields_present b t c cfg Ht Hne Hc Hcfg) as [Hp Hl].
  rewrite (respond_run_call openai b fs _ Hp Hl). rewrite Ht. simpl.
  eexists. split; reflexivity.
Qed.

Lemma respond_two_messages_witness :
  CHARACTER_PROMPTS !! "daenerys" = Some daenerys ∧
  ∃ args,
    filter (λ e, is_provider_call e = true)
      (events (run (respond (resolving "aye" []) (ask "Who are you?" "daenerys")) ∅))
      = [ChatCompletionsCreate args] ∧
    obj_get "messages" args =
      Some (VArr [ VObj [("role", VStr "system"); ("content", VStr (prompt daenerys))];
                   VObj [("role", VStr "user"); ("content", VStr "Who are you?")] ]).
Proof.
  split; [reflexivity|].
  apply (respond_two_messages (resolving "aye" []) (ask "Who are you?" "daenerys") ∅
           "Who are you?" "daenerys" daenerys);
    [reflexivity | discriminate | reflexivity | reflexivity].
Defined.

(** C4: for every valid request to [/api/respond], whichever persona it
    names, the generation call is made with [max_tokens] 100 and
    [temperature] 0.8, constants of the handler that do not come from the
    persona's [params]; the call carries no [top_p] at all. *)
Theorem respond_fixed_generation_settings (openai : provider) (b : json_body)
  (fs : gset string) (t c : string) (cfg : persona) :
  text b = Some t → t ≠ EmptyString →
  character b = Some c → CHARACTER_PROMPTS !! c = Some cfg →
  ∃ args,
    filter (λ e, is_provider_call e = true) (events (run (respond openai b) fs))
      = [ChatCompletionsCreate args] ∧
    obj_get "max_tokens" args = Some (VNum 100) ∧
    obj_get "temperature" args = Some (VNum 0.8) ∧
    obj_get "top_p" args = None.
Proof.
  intros Ht Hne Hc Hcfg.
  destruct (valid_fields_present b t c cfg Ht Hne Hc Hcfg) as [Hp Hl].
  rewrite (respond_run_call openai b fs _ Hp Hl). simpl.
  eexists. repeat split; reflexivity.
Qed.

Lemma respond_fixed_generation_settings_witness :
  CHARACTER_PROMPTS !! "jon-snow" = Some jon_snow ∧
  ¬ (temperature (params jon_snow) == 0.8)%Q ∧
  ∃ args,
    filter (λ e, is_provider_call e = true)
      (events (run (respond (resolving "aye" []) (ask "Who are you?" "jon-snow")) ∅))
      = [ChatCompletionsCreate args] ∧
    obj_get "max_tokens" args = Some (VNum 100) ∧
    obj_get "temperature" args = Some (VNum 0.8) ∧
    obj_get "top_p" args = None.
Proof.
  split; [reflexivity|]. split; [discriminate|].
  apply (respond_fixed_generation_settings (resolving "aye" [])
           (ask "Who are you?" "jon-snow") ∅ "Who are you?" "jon-snow" jon_snow);
    [reflexivity | discriminate | reflexivity | reflexivity].
Defined.

(** C7: for a persona id of the table and a non-empty text, [/api/tts]
    makes one synthesis call, with that persona's [voice], the request's
    text as [input], and the [speed] 1.1, a constant of the handler that is
    above 1. *)
Theorem tts_voice_input_speed (openai : provider) (b : json_body)
  (fs : gset string) (t c : string) (cfg : persona) :
  text b = Some t → t ≠ EmptyString →
  character b = Some c → CHARACTER_PROMPTS !! c = Some cfg →
  ∃ args,
    filter (λ e, is_provider_call e = true) (events (run (tts openai b) fs))
      = [SpeechCreate args] ∧
    obj_get "voice" args = Some (VStr (voice cfg)) ∧
    obj_get "input" args = Some (VStr t) ∧
    obj_get "speed" args = Some (VNum 1.1) ∧
    (1 < 1.1)%Q.
Proof.
  intros Ht Hne Hc Hcfg.
  destruct (valid_fields_present b t c cfg Ht Hne Hc Hcfg) as [Hp Hl].
  rewrite (tts_run_call openai b fs _ Hp Hl). rewrite Ht. simpl.
  eexists. repeat split; reflexivity.
Qed.

Lemma tts_voice_input_speed_witness :
  CHARACTER_PROMPTS !! "sansa" = Some sansa ∧
  ∃ args,
    filter (λ e, is_provider_call e = true)
      (events (run (tts (resolving "aye" []) (ask "Winter is here." "sansa")) ∅))
      = [SpeechCreate args] ∧
    obj_get "voice" args = Some (VStr "shimmer") ∧
    obj_get "input" args = Some (VStr "Winter is here.") ∧
    obj_get "speed" args = Some (VNum 1.1) ∧
    (1 < 1.1)%Q.
Proof.
  split; [reflexivity|].
  apply (tts_voice_input_speed (resolving "aye" []) (ask "Winter is here." "sansa") ∅
           "Winter is here." "sansa" sansa);
    [reflexivity | discriminate | reflexivity | reflexivity].
Defined.

(** C9: whenever [/api/tts] answers with status 200, the body is the buffer
    the provider resolved the synthesis call with, [Content-Type] is
    [audio/mpeg] and [Content-Length] is the number of bytes of that
    buffer. *)
Theorem tts_success_audio_response (openai : provider) (b : json_body)
  (fs : gset string) :
  status (sent (run (tts openai b) fs)) = 200 →
  ∃ args buffer,
    SpeechCreate args ∈ events (run (tts openai b) fs) ∧
    speech_create openai args = Resolved buffer ∧
    body (sent (run (tts openai b) fs)) = VBuffer buffer ∧
    assoc "Content-Type" (headers (sent (run (tts openai b) fs)))
      = Some (VStr "audio/mpeg") ∧
    assoc "Content-Length" (headers (sent (run (tts openai b) fs)))
      = Some (VNum (inject_Z (Z.of_nat (length buffer)))).
Proof.
  destruct (fields_present b) eqn:Hp;
    [|rewrite (tts_run_missing openai b fs Hp); discriminate].
  destruct (lookup_character (to_property_key (character b))) as [cfg|] eqn:Hl;
    [|rewrite (tts_run_unknown openai b fs Hp Hl); discriminate].
  rewrite (tts_run_call openai b fs cfg Hp Hl). simpl.
  destruct (speech_create openai _) as [buffer|m] eqn:Hreply; [|discriminate].
  intros _. exists (speech_args cfg (field_val (text b))), buffer.
  split; [|by repeat split].
  apply elem_of_cons; right. apply elem_of_cons; left. reflexivity.
Qed.

Lemma tts_success_audio_response_witness :
  let openai := resolving "aye" [Byte.xff; Byte.xfb; Byte.x90] in
  let r := run (tts openai (ask "Dracarys." "daenerys")) ∅ in
  status (sent r) = 200 ∧
  ∃ args buffer,
    SpeechCreate args ∈ events r ∧
    speech_create openai args = Resolved buffer ∧
    body (sent r) = VBuffer buffer ∧
    assoc "Content-Type" (headers (sent r)) = Some (VStr "audio/mpeg") ∧
    assoc "Content-Length" (headers (sent r))
      = Some (VNum (inject_Z (Z.of_nat (length buffer)))).
Proof.
  split; [reflexivity|].
  apply (tts_success_audio_response
           (resolving "aye" [Byte.xff; Byte.xfb; Byte.x90])
           (ask "Dracarys." "daenerys") ∅).
  reflexivity.
Defined.

(** C3: at the failing input. [constructor] is not an id of the persona
    table, yet [CHARACTER_PROMPTS["constructor"]] is the inherited
    [Object] function, which passes the [!characterConfig] test: both
    routes go on to call the provider (with an undefined prompt, an
    undefined voice) and the answer is not the 400 response. *)
Theorem inherited_key_reaches_provider (openai : provider) (fs : gset string) :
  CHARACTER_PROMPTS !! "constructor" = None ∧
  (let r := run (respond openai (ask "hello" "constructor")) fs in
   status (sent r) ≠ 400 ∧
   events r = [ Lookup "constructor";
                ChatCompletionsCreate
                  (chat_args (Inherited "constructor") (VStr "hello")) ]) ∧
  (let r := run (tts openai (ask "hello" "constructor")) fs in
   status (sent r) ≠ 400 ∧
   events r = [ Lookup "constructor";
                SpeechCreate
                  (speech_args (Inherited "constructor") (VStr "hello")) ]).
Proof.
  split; [reflexivity|]. split.
  - rewrite (respond_run_call openai (ask "hello" "constructor") fs
               (Inherited "constructor") eq_refl eq_refl). simpl.
    split; [|reflexivity].
    destruct (chat_completions_create openai _); simpl; lia.
  - rewrite (tts_run_call openai (ask "hello" "constructor") fs
               (Inherited "constructor") eq_refl eq_refl). simpl.
    split; [|reflexivity].
    destruct (speech_create openai _); simpl; lia.
Qed.

(** ** Provider failures *)

(** C2, amended: when the provider call of a request fails, each of the
    three handlers answers with status 500. [/api/transcribe] relays the
    provider's message, as [details]; [/api/respond] and [/api/tts] answer
    with their own fixed [error] string, whatever the message was. *)
Theorem provider_failure_response (openai : provider) (req : request)
  (fs : gset string) (message : string) :
  provider_failed openai (events (run (handle openai req) fs)) message →
  status (sent (run (handle openai req) fs)) = 500 ∧
  match req with
  | PostTranscribe _ =>
      body (sent (run (handle openai req) fs)) =
        VObj [("error", VStr "Transcription failed"); ("details", VStr message)] ∧
      mentions (body (sent (run (handle openai req) fs))) message = true
  | PostRespond _ =>
      body (sent (run (handle openai req) fs)) =
        VObj [("error", VStr "Response generation failed")]
  | PostTts _ =>
      body (sent (run (handle openai req) fs)) =
        VObj [("error", VStr "TTS generation failed")]
  end.
Proof.
  destruct req as [[f|]|b|b]; simpl handle.
  - destruct (file_extension_total f) as [ext Hext].
    destruct (decide (path f ∈ fs)) as [Hin|Hout].
    + rewrite (transcribe_run_staged openai f fs ext Hext Hin).
      destruct (transcriptions_create openai _) as [t|m] eqn:Hreply;
        simpl; intros Hfail.
      * failed_call Hfail. rewrite Hreply in Hrej. discriminate Hrej.
      * destruct (negb (String.eqb (path f) EmptyString));
          failed_call Hfail; rewrite Hreply in Hrej;
          injection Hrej as ->;
          (split; [reflexivity|split; [reflexivity|exact (mentions_details _ _)]]).
    + rewrite (transcribe_run_unstaged openai f fs ext Hext Hout). simpl.
      intros Hfail.
      destruct (negb (String.eqb (path f) EmptyString)); failed_call Hfail.
  - intros Hfail. failed_call Hfail.
  - destruct (fields_present b) eqn:Hp;
      [|rewrite (respond_run_missing openai b fs Hp); intros Hfail;
        failed_call Hfail].
    destruct (lookup_character (to_property_key (character b))) as [cfg|] eqn:Hl;
      [|rewrite (respond_run_unknown openai b fs Hp Hl); intros Hfail;
        failed_call Hfail].
    rewrite (respond_run_call openai b fs cfg Hp Hl). simpl. intros Hfail.
    failed_call Hfail.
    destruct (chat_completions_create openai _); [discriminate Hrej|].
    split; reflexivity.
  - destruct (fields_present b) eqn:Hp;
      [|rewrite (tts_run_missing openai b fs Hp); intros Hfail;
        failed_call Hfail].
    destruct (lookup_character (to_property_key (character b))) as [cfg|] eqn:Hl;
      [|rewrite (tts_run_unknown openai b fs Hp Hl); intros Hfail;
        failed_call Hfail].
    rewrite (tts_run_call openai b fs cfg Hp Hl). simpl. intros Hfail.
    failed_call Hfail.
    destruct (speech_create openai _); [discriminate Hrej|].
    split; reflexivity.
Qed.

Lemma staged_upload_extension (w : world) :
  file_extension (staged_upload "recording.webm") w = (Ok "webm", w).
Proof. reflexivity. Qed.

Lemma staged_upload_present : path (staged_upload "recording.webm") ∈ staged_files.
Proof. apply elem_of_singleton. reflexivity. Qed.

Lemma provider_failure_response_witness :
  provider_failed (rejecting "429 quota exceeded")
    (events (run (handle (rejecting "429 quota exceeded")
                    (PostTranscribe (Some (staged_upload "recording.webm"))))
               staged_files))
    "429 quota exceeded" ∧
  status (sent (run (handle (rejecting "429 quota exceeded")
                       (PostTranscribe (Some (staged_upload "recording.webm"))))
                  staged_files)) = 500.
Proof.
  assert (provider_failed (rejecting "429 quota exceeded")
            (events (run (handle (rejecting "429 quota exceeded")
                            (PostTranscribe (Some (staged_upload "recording.webm"))))
                       staged_files))
            "429 quota exceeded") as Hfail.
  { simpl handle.
    rewrite (transcribe_run_staged _ _ _ "webm" staged_upload_extension
               staged_upload_present).
    eexists. split; [apply elem_of_cons; right; apply elem_of_cons; left|];
      reflexivity. }
  split; [exact Hfail|].
  apply (provider_failure_response (rejecting "429 quota exceeded")
           (PostTranscribe (Some (staged_upload "recording.webm")))
           staged_files "429 quota exceeded" Hfail).
Defined.

(** C2, as stated, fails on [/api/respond]: the provider rejects the call
    with a message and the 500 body does not contain it. *)
Lemma respond_drops_provider_message :
  provider_failed (rejecting "429 quota exceeded")
    (events (run (handle (rejecting "429 quota exceeded")
                    (PostRespond (ask "hello" "jon-snow"))) ∅))
    "429 quota exceeded" ∧
  status (sent (run (handle (rejecting "429 quota exceeded")
                       (PostRespond (ask "hello" "jon-snow"))) ∅)) = 500 ∧
  mentions (body (sent (run (handle (rejecting "429 quota exceeded")
                               (PostRespond (ask "hello" "jon-snow"))) ∅)))
    "429 quota exceeded" = false.
Proof.
  simpl handle.
  rewrite (respond_run_call (rejecting "429 quota exceeded")
             (ask "hello" "jon-snow") ∅ (Entry jon_snow) eq_refl eq_refl).
  split; [|split; reflexivity].
  eexists. split; [apply elem_of_cons; right; apply elem_of_cons; left|];
    reflexivity.
Qed.

(** ** Staging an upload *)

Lemma allowed_is_lower_case (e : string) :
  includes ALLOWED_EXTENSIONS e = true → toLowerCase e = e.
Proof.
  unfold includes, ALLOWED_EXTENSIONS. cbn [existsb]. intros H.
  repeat (apply orb_prop in H as [H|H];
          [apply String.eqb_eq in H; subst e; reflexivity|]).
  discriminate H.
Qed.

(** C5, amended: the staged file is renamed to, and forwarded to the
    provider under, its path followed by a resolved extension. For a named
    upload that is the final extension of the filename in lower case when
    the allow-list has it (so an extension written as in the allow-list is
    kept as it is), and [webm] when it has not; for an upload without a
    filename it is [webm]. *)
Theorem extension_forwarded_lowercased (openai : provider) (f : upload)
  (fs : gset string) :
  path f ∈ fs →
  ∃ ext args rest,
    events (run (transcribe openai (Some f)) fs) =
      RenameSync (path f) (path f +:+ "." +:+ ext)
      :: TranscriptionsCreate args :: rest ∧
    obj_get "file" args = Some (VReadStream (path f +:+ "." +:+ ext)) ∧
    (originalname f = None → ext = "webm") ∧
    (∀ filename e,
       originalname f = Some filename → final_extension filename e →
       (includes ALLOWED_EXTENSIONS e = true → ext = e) ∧
       (includes ALLOWED_EXTENSIONS (toLowerCase e) = true → ext = toLowerCase e) ∧
       (includes ALLOWED_EXTENSIONS (toLowerCase e) = false → ext = "webm")).
Proof.
  intros Hin. destruct (file_extension_total f) as [ext Hext].
  pose (w0 := {| files := fs; trace := [] |}).
  assert (∃ rest, events (run (transcribe openai (Some f)) fs) =
            RenameSync (path f) (path f +:+ "." +:+ ext)
            :: TranscriptionsCreate
                 (VObj [ ("file", VReadStream (path f +:+ "." +:+ ext));
                         ("model", VStr "whisper-1"); ("language", VStr "en") ])
            :: rest) as [rest Hrun].
  { rewrite (transcribe_run_staged openai f fs ext Hext Hin).
    destruct (transcriptions_create openai _); simpl; eauto. }
  exists ext, (VObj [ ("file", VReadStream (path f +:+ "." +:+ ext));
                      ("model", VStr "whisper-1"); ("language", VStr "en") ]), rest.
  split; [exact Hrun|]. split; [reflexivity|]. split.
  - intros Hname. pose proof (file_extension_unnamed f w0 Hname) as Hw.
    rewrite Hext in Hw. congruence.
  - intros filename e Hname Hfinal.
    pose proof (file_extension_final f filename e w0 Hname Hfinal) as Hw.
    rewrite Hext in Hw.
    assert (ext = if includes ALLOWED_EXTENSIONS (toLowerCase e)
                  then toLowerCase e else "webm") as Hresolved by congruence.
    rewrite Hresolved. clear Hresolved.
    split; [|split]; intros Hmem.
    + rewrite (allowed_is_lower_case e Hmem), Hmem. reflexivity.
    + rewrite Hmem. reflexivity.
    + rewrite Hmem. reflexivity.
Qed.

Lemma extension_forwarded_lowercased_witness :
  path (staged_upload "clip.MP3") ∈ staged_files ∧
  ∃ ext args rest,
    events (run (transcribe (resolving "hello" []) (Some (staged_upload "clip.MP3")))
              staged_files) =
      RenameSync "uploads/3f9c2a" ("uploads/3f9c2a" +:+ "." +:+ ext)
      :: TranscriptionsCreate args :: rest ∧
    obj_get "file" args = Some (VReadStream ("uploads/3f9c2a" +:+ "." +:+ ext)).
Proof.
  split; [apply elem_of_singleton; reflexivity|].
  destruct (extension_forwarded_lowercased (resolving "hello" [])
              (staged_upload "clip.MP3") staged_files)
    as (ext & args & rest & Hrun & Hfile & _);
    [apply elem_of_singleton; reflexivity|].
  exists ext, args, rest. split; [exact Hrun | exact Hfile].
Defined.

(** C5, as stated, fails on an upper-case extension: [MP3] is the final
    extension of [clip.MP3] and is not in the allow-list, yet the staged
    file is renamed and forwarded as [.mp3], not with the fallback
    [.webm]. *)
Lemma uppercase_extension_not_fallback :
  final_extension "clip.MP3" "MP3" ∧
  includes ALLOWED_EXTENSIONS "MP3" = false ∧
  events (run (transcribe (resolving "hello" []) (Some (staged_upload "clip.MP3")))
            staged_files) =
    [ RenameSync "uploads/3f9c2a" "uploads/3f9c2a.mp3";
      TranscriptionsCreate
        (VObj [ ("file", VReadStream "uploads/3f9c2a.mp3");
                ("model", VStr "whisper-1"); ("language", VStr "en") ]);
      UnlinkSync "uploads/3f9c2a.mp3" ] ∧
  "uploads/3f9c2a.mp3" ≠ "uploads/3f9c2a" +:+ "." +:+ "webm" ∧
  "uploads/3f9c2a.mp3" ≠ "uploads/3f9c2a" +:+ "." +:+ "MP3".
Proof.
  split; [split; [reflexivity | right; exists "clip"; reflexivity]|].
  split; [reflexivity|].
  split; [|split; discriminate].
  rewrite (transcribe_run_staged _ (staged_upload "clip.MP3") staged_files "mp3");
    [reflexivity | intros w; reflexivity | apply elem_of_singleton; reflexivity].
Qed.

(** C1, at the failing input: the provider rejects the transcription of a
    staged upload. The handler answers 500 and its catch clause unlinks the
    path the file was staged under, which no longer exists after the
    rename; the renamed file is still in the uploads directory when the
    handler returns. *)
Theorem transcribe_failure_leaves_staged_file :
  let r := run (transcribe (rejecting "429 quota exceeded")
                  (Some (staged_upload "recording.webm"))) staged_files in
  status (sent r) = 500 ∧
  events r =
    [ RenameSync "uploads/3f9c2a" "uploads/3f9c2a.webm";
      TranscriptionsCreate
        (VObj [ ("file", VReadStream "uploads/3f9c2a.webm");
                ("model", VStr "whisper-1"); ("language", VStr "en") ]);
      UnlinkSync "uploads/3f9c2a" ] ∧
  "uploads/3f9c2a.webm" ∈ files_after r.
Proof.
  intros r. subst r.
  rewrite (transcribe_run_staged _ _ _ "webm" staged_upload_extension
             staged_upload_present).
  split; [reflexivity|]. split; [reflexivity|].
  apply elem_of_union_l, elem_of_singleton. reflexivity.
Qed.

(** * The server as a whole *)

Lemma file_extension_allowed (f : upload) (ext : string) :
  (∀ w, file_extension f w = (Ok ext, w)) →
  includes ALLOWED_EXTENSIONS ext = true.
Proof.
  intros Hext. specialize (Hext {| files := ∅; trace := [] |}).
  unfold file_extension in Hext.
  destruct (originalname f) as [n|]; [|injection Hext as <-; reflexivity].
  destruct (truthy (VStr n)); [|injection Hext as <-; reflexivity].
  destruct (pop (split_dot n)) as [seg|]; [|discriminate Hext].
  destruct (includes ALLOWED_EXTENSIONS (toLowerCase seg)) eqn:Hmem.
  - assert (ext = toLowerCase seg) as -> by (unfold mret, M_ret in Hext; congruence).
    exact Hmem.
  - assert (ext = "webm") as -> by (unfold mret, M_ret in Hext; congruence).
    reflexivity.
Qed.

(** Every run of the router takes one of the courses of [served]. *)
Lemma handle_served (openai : provider) (req : request) (fs : gset string) :
  served openai fs req (run (handle openai req) fs).
Proof.
  destruct req as [[f|]|b|b]; simpl handle.
  - destruct (file_extension_total f) as [ext Hext].
    pose proof (file_extension_allowed f ext Hext) as Hallowed.
    destruct (decide (path f ∈ fs)) as [Hin|Hout].
    + rewrite (transcribe_run_staged openai f fs ext Hext Hin).
      destruct (transcriptions_create openai _) as [t|m] eqn:Hreply.
      * by apply served_transcribed.
      * by apply served_transcription_failed.
    + rewrite (transcribe_run_unstaged openai f fs ext Hext Hout).
      by apply served_not_staged.
  - apply served_no_file.
  - destruct (fields_present b) eqn:Hp;
      [|rewrite (respond_run_missing openai b fs Hp); by apply served_respond_missing].
    destruct (lookup_character (to_property_key (character b))) as [cfg|] eqn:Hl;
      [|rewrite (respond_run_unknown openai b fs Hp Hl);
        by apply served_respond_unknown].
    rewrite (respond_run_call openai b fs cfg Hp Hl).
    destruct (chat_completions_create openai _) as [r|m] eqn:Hreply.
    + by apply served_respond_replied.
    + by eapply served_respond_failed.
  - destruct (fields_present b) eqn:Hp;
      [|rewrite (tts_run_missing openai b fs Hp); by apply served_tts_missing].
    destruct (lookup_character (to_property_key (character b))) as [cfg|] eqn:Hl;
      [|rewrite (tts_run_unknown openai b fs Hp Hl); by apply served_tts_unknown].
    rewrite (tts_run_call openai b fs cfg Hp Hl).
    destruct (speech_create openai _) as [buffer|m] eqn:Hreply.
    + by apply served_tts_spoken.
    + by eapply served_tts_failed.
Qed.

Lemma catch_cleanup_no_call (f : upload) (e : event) :
  e ∈ catch_cleanup f → e = UnlinkSync (path f).
Proof.
  unfold catch_cleanup. destruct (truthy (VStr (path f))); intros He.
  - apply elem_of_cons in He as [->|He]; [reflexivity|].
    by apply elem_of_nil in He.
  - by apply elem_of_nil in He.
Qed.



(** X3: a 400 is decided before anything is done: no provider call, no file
    operation, the directory as it was. *)
Theorem client_error_does_nothing (openai : provider) (req : request)
  (fs : gset string) :
  status (sent (run (handle openai req) fs)) = 400 →
  files_after (run (handle openai req) fs) = fs ∧
  ∀ e, e ∈ events (run (handle openai req) fs) →
       is_provider_call e = false ∧ is_fs_operation e = false.
Proof.
  generalize (handle_served openai req fs).
  generalize (run (handle openai req) fs). intros r Hserved.
  destruct Hserved; simpl; intros Hstatus; try discriminate Hstatus;
    (split; [reflexivity|]); intros e He;
    repeat (apply elem_of_cons in He as [->|He]);
    try (by apply elem_of_nil in He); split; reflexivity.
Qed.


Lemma client_error_does_nothing_witness :
  status (sent (run (handle (resolving "aye" []) (PostTts (ask "hello" "arya")))
                  staged_files)) = 400 ∧
  files_after (run (handle (resolving "aye" []) (PostTts (ask "hello" "arya")))
                 staged_files) = staged_files.
Proof.
  split; [reflexivity|].
  apply (client_error_does_nothing (resolving "aye" [])
           (PostTts (ask "hello" "arya")) staged_files).
  reflexivity.
Defined.

Lemma json_run_any_directory (openai : provider) (b : json_body)
  (fs : gset string) :
  run (respond openai b) fs =
    {| sent := sent (run (respond openai b) ∅); files_after := fs;
       events := events (run (respond openai b) ∅) |} ∧
  run (tts openai b) fs =
    {| sent := sent (run (tts openai b) ∅); files_after := fs;
       events := events (run (tts openai b) ∅) |}.
Proof.
  destruct (fields_present b) eqn:Hp.
  - destruct (lookup_character (to_property_key (character b))) as [cfg|] eqn:Hl.
    + rewrite !(respond_run_call openai b _ cfg Hp Hl),
        !(tts_run_call openai b _ cfg Hp Hl). split; reflexivity.
    + rewrite !(respond_run_unknown openai b _ Hp Hl),
        !(tts_run_unknown openai b _ Hp Hl). split; reflexivity.
  - rewrite !(respond_run_missing openai b _ Hp), !(tts_run_missing openai b _ Hp).
    split; reflexivity.
Qed.

(** X5: the two JSON routes keep no state in the uploads directory: they
    answer and call the provider in the same way whatever it holds, and
    leave it as it was. *)
Theorem json_routes_ignore_directory (openai : provider) (b : json_body)
  (fs : gset string) :
  run (respond openai b) fs =
    {| sent := sent (run (respond openai b) ∅); files_after := fs;
       events := events (run (respond openai b) ∅) |} ∧
  run (tts openai b) fs =
    {| sent := sent (run (tts openai b) ∅); files_after := fs;
       events := events (run (tts openai b) ∅) |}.
Proof. exact (json_run_any_directory openai b fs). Qed.

Lemma files_frame (openai : provider) (req : request)
  (fs : gset string) (p : string) :
  (∀ f ext, req = PostTranscribe (Some f) →
            includes ALLOWED_EXTENSIONS ext = true →
            p ≠ path f ∧ p ≠ path f +:+ "." +:+ ext) →
  p ∈ files_after (run (handle openai req) fs) ↔ p ∈ fs.
Proof.
  generalize (handle_served openai req fs).
  generalize (run (handle openai req) fs). intros r Hserved.
  destruct Hserved; simpl; intros Hother; try reflexivity;
    destruct (Hother f ext eq_refl H) as [Hp Hnew];
    rewrite ?elem_of_difference, elem_of_union, elem_of_difference,
      !elem_of_singleton; tauto.
Qed.

(** X6: serving a request never creates, removes or replaces a file other
    than the staged upload and its renaming with an allow-listed
    extension. *)
Theorem other_files_untouched (openai : provider) (req : request)
  (fs : gset string) (p : string) :
  (∀ f ext, req = PostTranscribe (Some f) →
            includes ALLOWED_EXTENSIONS ext = true →
            p ≠ path f ∧ p ≠ path f +:+ "." +:+ ext) →
  p ∈ files_after (run (handle openai req) fs) ↔ p ∈ fs.
Proof. exact (files_frame openai req fs p). Qed.

Lemma other_files_untouched_witness :
  "uploads/77aa01" ∈
    files_after (run (handle (rejecting "429 quota exceeded")
                        (PostTranscribe (Some (staged_upload "recording.webm"))))
                   ({["uploads/77aa01"]} ∪ staged_files)).
Proof.
  apply (other_files_untouched (rejecting "429 quota exceeded")
           (PostTranscribe (Some (staged_upload "recording.webm")))
           ({["uploads/77aa01"]} ∪ staged_files) "uploads/77aa01").
  - intros f ext Hreq _. injection Hreq as <-.
    split; [discriminate|].
    intros Heq. apply (f_equal (String.get 8)) in Heq. discriminate Heq.
  - apply elem_of_union_l, elem_of_singleton. reflexivity.
Defined.

(** X7: whatever the filename of an upload, the only file operations of
    [/api/transcribe] are a rename of the staged path to that path with an
    extension of the allow-list, and unlinks of one of these two paths. *)
Theorem staged_extension_always_allowed (openai : provider) (f : upload)
  (fs : gset string) :
  ∃ ext,
    includes ALLOWED_EXTENSIONS ext = true ∧
    ∀ e, e ∈ events (run (transcribe openai (Some f)) fs) →
         is_fs_operation e = true →
         e = RenameSync (path f) (path f +:+ "." +:+ ext)
         ∨ e = UnlinkSync (path f +:+ "." +:+ ext)
         ∨ e = UnlinkSync (path f).
Proof.
  pose proof (handle_served openai (PostTranscribe (Some f)) fs) as Hserved.
  simpl handle in Hserved.
  inversion Hserved as
    [ | f0 ext Hallowed Hout | f0 ext t Hallowed Hin Hreply
      | f0 ext m Hallowed Hin Hreply | | | | | | | | ];
    subst; exists ext; (split; [exact Hallowed|]); intros e He Hfs;
    repeat (apply elem_of_cons in He as [->|He]);
    try (apply catch_cleanup_no_call in He as ->);
    try (by apply elem_of_nil in He);
    try discriminate Hfs; auto.
Qed.

(** X8: when [/api/transcribe] answers 200, the body is the provider's
    text and nothing else, and the directory is what it was without the
    staged file, under its staged name and under its renamed one. *)
Theorem transcribe_success_cleans_up (openai : provider) (f : upload)
  (fs : gset string) :
  status (sent (run (transcribe openai (Some f)) fs)) = 200 →
  ∃ ext t,
    transcriptions_create openai (transcription_args (path f +:+ "." +:+ ext))
      = Resolved t ∧
    body (sent (run (transcribe openai (Some f)) fs)) = VObj [("text", VStr t)] ∧
    files_after (run (transcribe openai (Some f)) fs)
      = fs ∖ {[path f]} ∖ {[path f +:+ "." +:+ ext]}.
Proof.
  pose proof (handle_served openai (PostTranscribe (Some f)) fs) as Hserved.
  simpl handle in Hserved.
  inversion Hserved as
    [ | f0 ext Hallowed Hout | f0 ext t Hallowed Hin Hreply
      | f0 ext m Hallowed Hin Hreply | | | | | | | | ];
    subst; simpl; intros Hstatus; try discriminate Hstatus.
  exists ext, t. split; [exact Hreply|]. split; [reflexivity|].
  apply set_eq. intros p.
  rewrite !elem_of_difference, elem_of_union, elem_of_difference,
    !elem_of_singleton. tauto.
Qed.

Lemma transcribe_success_cleans_up_witness :
  status (sent (run (transcribe (resolving "hello" [])
                       (Some (staged_upload "recording.webm"))) staged_files)) = 200 ∧
  ∃ ext t,
    transcriptions_create (resolving "hello" [])
      (transcription_args (path (staged_upload "recording.webm") +:+ "." +:+ ext))
      = Resolved t ∧
    body (sent (run (transcribe (resolving "hello" [])
                       (Some (staged_upload "recording.webm"))) staged_files))
      = VObj [("text", VStr t)] ∧
    files_after (run (transcribe (resolving "hello" [])
                        (Some (staged_upload "recording.webm"))) staged_files)
      = staged_files ∖ {[path (staged_upload "recording.webm")]}
          ∖ {[path (staged_upload "recording.webm") +:+ "." +:+ ext]}.
Proof.
  assert (status (sent (run (transcribe (resolving "hello" [])
                  (Some (staged_upload "recording.webm"))) staged_files)) = 200)
    as Hstatus.
  { rewrite (transcribe_run_staged _ _ _ "webm" staged_upload_extension
               staged_upload_present). reflexivity. }
  split; [exact Hstatus|].
  exact (transcribe_success_cleans_up (resolving "hello" [])
           (staged_upload "recording.webm") staged_files Hstatus).
Defined.

(** X9: when the provider rejects the transcription of an upload that is
    in the directory, the handler leaves the directory with the upload
    under its renamed path: the staged name is gone, the renamed file is
    there. *)
Theorem transcribe_failure_keeps_renamed_file (openai : provider) (f : upload)
  (fs : gset string) (m : string) :
  path f ∈ fs →
  provider_failed openai (events (run (transcribe openai (Some f)) fs)) m →
  ∃ ext,
    includes ALLOWED_EXTENSIONS ext = true ∧
    files_after (run (transcribe openai (Some f)) fs)
      = {[path f +:+ "." +:+ ext]} ∪ fs ∖ {[path f]} ∧
    (path f +:+ "." +:+ ext) ∈ files_after (run (transcribe openai (Some f)) fs) ∧
    path f ∉ files_after (run (transcribe openai (Some f)) fs).
Proof.
  intros Hstaged.
  pose proof (handle_served openai (PostTranscribe (Some f)) fs) as Hserved.
  simpl handle in Hserved.
  inversion Hserved as
    [ | f0 ext Hallowed Hout | f0 ext t Hallowed Hin Hreply
      | f0 ext m' Hallowed Hin Hreply | | | | | | | | ];
    subst; simpl; intros [e [He Hrej]].
  - contradiction.
  - exfalso. repeat (apply elem_of_cons in He as [->|He]);
      try (by apply elem_of_nil in He); try discriminate Hrej.
    simpl in Hrej. fold (transcription_args (path f +:+ "." +:+ ext)) in Hrej.
    rewrite Hreply in Hrej. discriminate Hrej.
  - exists ext. split; [exact Hallowed|]. split; [reflexivity|]. split.
    + apply elem_of_union_l. by apply elem_of_singleton.
    + intros Hp.
      apply elem_of_union in Hp as [Hp%elem_of_singleton_1|[_ Hp]%elem_of_difference].
      * by apply (renamed_path_fresh (path f) ext).
      * apply Hp. by apply elem_of_singleton.
Qed.

Lemma transcribe_failure_keeps_renamed_file_witness :
  path (staged_upload "recording.webm") ∈ staged_files ∧
  ∃ ext,
    includes ALLOWED_EXTENSIONS ext = true ∧
    files_after (run (transcribe (rejecting "429 quota exceeded")
                        (Some (staged_upload "recording.webm"))) staged_files)
      = {[path (staged_upload "recording.webm") +:+ "." +:+ ext]}
        ∪ staged_files ∖ {[path (staged_upload "recording.webm")]}.
Proof.
  split; [exact staged_upload_present|].
  destruct (transcribe_failure_keeps_renamed_file (rejecting "429 quota exceeded")
              (staged_upload "recording.webm") staged_files "429 quota exceeded"
              staged_upload_present)
    as (ext & Hallowed & Hfiles & _).
  - rewrite (transcribe_run_staged _ _ _ "webm" staged_upload_extension
               staged_upload_present).
    eexists. split; [apply elem_of_cons; right; apply elem_of_cons; left|];
      reflexivity.
  - exists ext. split; [exact Hallowed | exact Hfiles].
Defined.



(** X11: a non-empty [character] that is neither an id of the table nor a
    member of [Object.prototype] is turned away by both JSON routes with the
    400 [Invalid character] response, after the lookup and before any
    provider call. *)
Theorem unknown_character_is_invalid (openai : provider) (b : json_body)
  (fs : gset string) (t c : string) :
  text b = Some t → t ≠ EmptyString →
  character b = Some c → c ≠ EmptyString →
  CHARACTER_PROMPTS !! c = None →
  includes object_prototype_keys c = false →
  run (respond openai b) fs =
    {| sent := invalid_character; files_after := fs; events := [Lookup c] |} ∧
  run (tts openai b) fs =
    {| sent := invalid_character; files_after := fs; events := [Lookup c] |}.
Proof.
  intros Ht Hne Hc Hcne Hown Hinherited.
  assert (fields_present b = true) as Hp.
  { unfold fields_present. rewrite Ht, Hc. simpl field_val.
    by rewrite (truthy_nonempty t Hne), (truthy_nonempty c Hcne). }
  assert (lookup_character (to_property_key (character b)) = None) as Hl.
  { rewrite Hc. simpl. unfold lookup_character. by rewrite Hown, Hinherited. }
  rewrite (respond_run_unknown openai b fs Hp Hl),
    (tts_run_unknown openai b fs Hp Hl), Hc.
  split; reflexivity.
Qed.

Lemma unknown_character_is_invalid_witness :
  CHARACTER_PROMPTS !! "arya" = None ∧
  run (respond (resolving "aye" []) (ask "hello" "arya")) ∅ =
    {| sent := invalid_character; files_after := ∅; events := [Lookup "arya"] |}.
Proof.
  split; [reflexivity|].
  apply (unknown_character_is_invalid (resolving "aye" []) (ask "hello" "arya") ∅
           "hello" "arya");
    [reflexivity | discriminate | reflexivity | discriminate | reflexivity
    | reflexivity].
Defined.

Lemma response_depends_on_staged_only (openai : provider) (req : request)
  (fs fs' : gset string) :
  (∀ f, req = PostTranscribe (Some f) → path f ∈ fs ↔ path f ∈ fs') →
  sent (run (handle openai req) fs) = sent (run (handle openai req) fs') ∧
  events (run (handle openai req) fs) = events (run (handle openai req) fs').
Proof.
  intros Hsame. destruct req as [[f|]|b|b]; simpl handle.
  - destruct (file_extension_total f) as [ext Hext].
    destruct (decide (path f ∈ fs)) as [Hin|Hout].
    + pose proof (proj1 (Hsame f eq_refl) Hin) as Hin'.
      rewrite (transcribe_run_staged openai f fs ext Hext Hin),
        (transcribe_run_staged openai f fs' ext Hext Hin').
      destruct (transcriptions_create openai _); split; reflexivity.
    + assert (path f ∉ fs') as Hout'
        by (intros Hin'; apply Hout, (Hsame f eq_refl), Hin').
      rewrite (transcribe_run_unstaged openai f fs ext Hext Hout),
        (transcribe_run_unstaged openai f fs' ext Hext Hout').
      split; reflexivity.
  - split; reflexivity.
  - destruct (json_run_any_directory openai b fs) as [-> _].
    destruct (json_run_any_directory openai b fs') as [-> _].
    split; reflexivity.
  - destruct (json_run_any_directory openai b fs) as [_ ->].
    destruct (json_run_any_directory openai b fs') as [_ ->].
    split; reflexivity.
Qed.

(** X12: requests are isolated from each other. What a request is answered
    and what it does are the same after any earlier request as without it,
    as long as, when both are uploads, the later one is not staged under a
    path of the earlier one. In particular a failure of the earlier request
    has no effect on the later one. *)
Theorem requests_isolated (openai : provider) (earlier later : request)
  (fs : gset string) :
  (∀ f1 f2 ext,
     earlier = PostTranscribe (Some f1) → later = PostTranscribe (Some f2) →
     includes ALLOWED_EXTENSIONS ext = true →
     path f2 ≠ path f1 ∧ path f2 ≠ path f1 +:+ "." +:+ ext) →
  sent (run (handle openai later)
          (files_after (run (handle openai earlier) fs)))
    = sent (run (handle openai later) fs) ∧
  events (run (handle openai later)
            (files_after (run (handle openai earlier) fs)))
    = events (run (handle openai later) fs).
Proof.
  intros Hapart. apply response_depends_on_staged_only.
  intros f2 Hlater. apply files_frame.
  intros f1 ext Hearlier Hallowed. exact (Hapart f1 f2 ext Hearlier Hlater Hallowed).
Qed.

Lemma requests_isolated_witness :
  sent (run (handle (rejecting "429 quota exceeded")
               (PostTranscribe
                  (Some {| originalname := Some "b.wav"; path := "uploads/77aa01" |})))
          (files_after
             (run (handle (rejecting "429 quota exceeded")
                     (PostTranscribe (Some (staged_upload "recording.webm"))))
                ({["uploads/77aa01"]} ∪ staged_files))))
  = sent (run (handle (rejecting "429 quota exceeded")
                 (PostTranscribe
                    (Some {| originalname := Some "b.wav"; path := "uploads/77aa01" |})))
            ({["uploads/77aa01"]} ∪ staged_files)).
Proof.
  apply (requests_isolated (rejecting "429 quota exceeded")
           (PostTranscribe (Some (staged_upload "recording.webm")))
           (PostTranscribe
              (Some {| originalname := Some "b.wav"; path := "uploads/77aa01" |}))
           ({["uploads/77aa01"]} ∪ staged_files)).
  intros f1 f2 ext Hearlier Hlater _.
  injection Hearlier as <-. injection Hlater as <-.
  split; [discriminate|].
  intros Heq. apply (f_equal (String.get 8)) in Heq. discriminate Heq.
Defined.

(** ** Letter case of the filename *)

Lemma lower_char_dot (c : Ascii.ascii) :
  Ascii.eqb (lower_char c) dot = Ascii.eqb c dot.
Proof. destruct c as [[] [] [] [] [] [] [] []]; reflexivity. Qed.

Lemma split_dot_lower (s : string) :
  split_dot (toLowerCase s) = map toLowerCase (split_dot s).
Proof.
  induction s as [|c rest IH]; simpl; [reflexivity|].
  rewrite lower_char_dot. destruct (Ascii.eqb c dot); simpl.
  - rewrite IH. reflexivity.
  - rewrite IH. pose proof (split_dot_nonempty rest) as Hne.
    destruct (split_dot rest) as [|seg segs]; [contradiction|reflexivity].
Qed.

Lemma pop_split_dot_lower (s : string) :
  pop (split_dot (toLowerCase s)) = toLowerCase <$> pop (split_dot s).
Proof. unfold pop. rewrite split_dot_lower. apply fmap_last. Qed.

Lemma toLowerCase_empty (s : string) :
  toLowerCase s = EmptyString ↔ s = EmptyString.
Proof. destruct s; simpl; split; intros H; try reflexivity; discriminate H. Qed.

Lemma lower_char_idempotent (c : Ascii.ascii) :
  lower_char (lower_char c) = lower_char c.
Proof. destruct c as [[] [] [] [] [] [] [] []]; reflexivity. Qed.

Lemma toLowerCase_idempotent (s : string) :
  toLowerCase (toLowerCase s) = toLowerCase s.
Proof.
  induction s as [|c rest IH]; simpl; [reflexivity|].
  rewrite lower_char_idempotent, IH. reflexivity.
Qed.

Lemma file_extension_lower (p n : string) (w : world) :
  file_extension {| originalname := Some n; path := p |} w =
  file_extension {| originalname := Some (toLowerCase n); path := p |} w.
Proof.
  unfold file_extension. cbn [originalname].
  assert (truthy (VStr (toLowerCase n)) = truthy (VStr n)) as ->.
  { simpl. destruct (String.eqb_spec n EmptyString) as [->|Hn]; [reflexivity|].
    destruct (String.eqb_spec (toLowerCase n) EmptyString) as [He|_];
      [|reflexivity].
    exfalso. apply Hn. exact (proj1 (toLowerCase_empty n) He). }
  destruct (truthy (VStr n)); [|reflexivity].
  rewrite pop_split_dot_lower.
  destruct (pop (split_dot n)) as [seg|]; simpl; [|reflexivity].
  rewrite toLowerCase_idempotent. reflexivity.
Qed.

(** X13: the letter case of the filename does not matter: two uploads staged
    under the same path whose filenames differ only in the case of ASCII
    letters are served in exactly the same way. *)
Theorem filename_case_ignored (openai : provider) (p n1 n2 : string)
  (fs : gset string) :
  toLowerCase n1 = toLowerCase n2 →
  run (transcribe openai (Some {| originalname := Some n1; path := p |})) fs =
  run (transcribe openai (Some {| originalname := Some n2; path := p |})) fs.
Proof.
  intros Hcase.
  destruct (file_extension_total {| originalname := Some n1; path := p |})
    as [ext Hext1].
  assert (∀ w, file_extension {| originalname := Some n2; path := p |} w
               = (Ok ext, w)) as Hext2.
  { intros w. rewrite file_extension_lower, <- Hcase, <- file_extension_lower.
    apply Hext1. }
  destruct (decide (p ∈ fs)) as [Hin|Hout].
  - rewrite (transcribe_run_staged openai _ fs ext Hext1 Hin),
      (transcribe_run_staged openai _ fs ext Hext2 Hin). reflexivity.
  - rewrite (transcribe_run_unstaged openai _ fs ext Hext1 Hout),
      (transcribe_run_unstaged openai _ fs ext Hext2 Hout). reflexivity.
Qed.

Lemma filename_case_ignored_witness :
  toLowerCase "Clip.WAV" = toLowerCase "clip.wav" ∧
  run (transcribe (resolving "hello" [])
         (Some {| originalname := Some "Clip.WAV"; path := "uploads/3f9c2a" |}))
      staged_files =
  run (transcribe (resolving "hello" [])
         (Some {| originalname := Some "clip.wav"; path := "uploads/3f9c2a" |}))
      staged_files.
Proof.
  split; [reflexivity|].
  apply (filename_case_ignored (resolving "hello" []) "uploads/3f9c2a"
           "Clip.WAV" "clip.wav" staged_files).
  reflexivity.
Defined.

(** * The client pipeline *)

Section ClientRuns.

Variable openai : provider.
Variable play : jsval → playback.
Variable staged : string.

Lemma recording_extension (w : world) :
  file_extension {| originalname := Some "recording.webm"; path := staged |} w
  = (Ok "webm", w).
Proof. reflexivity. Qed.

(** The two ways [transcribeAudio] can go. *)
Lemma transcribeAudio_run (s : session) :
  let newPath := staged +:+ "." +:+ "webm" in
  transcribeAudio openai staged s =
  match transcriptions_create openai (transcription_args newPath) with
  | Resolved t =>
      (Fulfilled (VStr t),
       {| ui := ui s;
          uploads := ({[newPath]} ∪ ({[staged]} ∪ uploads s) ∖ {[staged]})
                     ∖ {[newPath]};
          server_events := server_events s ++
            [ RenameSync staged newPath;
              TranscriptionsCreate (transcription_args newPath);
              UnlinkSync newPath ] |})
  | Rejected _ =>
      (Raised "Transcription failed",
       {| ui := ui s;
          uploads := {[newPath]} ∪ ({[staged]} ∪ uploads s) ∖ {[staged]};
          server_events := server_events s ++
            RenameSync staged newPath
            :: TranscriptionsCreate (transcription_args newPath)
            :: catch_cleanup {| originalname := Some "recording.webm";
                                path := staged |} |})
  end.
Proof.
  intros newPath. unfold transcribeAudio, fetch_upload, mbind, Js_bind.
  cbv beta zeta. cbn [handle].
  rewrite !(transcribe_run_staged openai _ _ "webm" recording_extension);
    [|apply elem_of_union_l; by apply elem_of_singleton].
  subst newPath. unfold transcription_args. cbn [path].
  destruct (transcriptions_create openai _); reflexivity.
Qed.


(** [generateResponse] and [speakResponse] in terms of the run of their
    request. *)
Lemma generateResponse_run (v : jsval) (s : session) :
  let r := run (handle openai
                  (PostRespond {| text := as_field v;
                                  character := selectedCharacter (ui s) |}))
             (uploads s) in
  generateResponse openai v s =
  (if ok (sent r) then
     match body (sent r) with
     | VObj fields => Fulfilled (VObj fields)
     | _ => Raised "Unexpected token in JSON"
     end
   else Raised "Response generation failed",
   {| ui := ui s; uploads := files_after r;
      server_events := server_events s ++ events r |}).
Proof.
  intros r. unfold generateResponse, fetch, read_ui, mbind, Js_bind.
  cbv beta zeta. fold r. destruct (ok (sent r)); simpl; [|reflexivity].
  unfold response_json. destruct (body (sent r)); reflexivity.
Qed.

Lemma speakResponse_run (v : jsval) (s : session) :
  let r := run (handle openai
                  (PostTts {| text := as_field v;
                              character := selectedCharacter (ui s) |}))
             (uploads s) in
  speakResponse openai play v s =
  (if ok (sent r) then
     match play (body (sent r)) with
     | Ended => Fulfilled tt
     | Errored => Raised "error"
     | Silent => Pending
     end
   else Raised "TTS failed",
   {| ui := ui s; uploads := files_after r;
      server_events := server_events s ++ events r |}).
Proof.
  intros r. unfold speakResponse, fetch, read_ui, mbind, Js_bind.
  cbv beta zeta. fold r. destruct (ok (sent r)); simpl; [|reflexivity].
  destruct (play (body (sent r))); reflexivity.
Qed.

End ClientRuns.

Section Stages.

Variable openai : provider.
Variable play : jsval → playback.
Variable staged : string.

(** [generateResponse] either gets the provider's reply or throws, and in
    the latter case no provider call of this request resolved. *)
Lemma generateResponse_cases (v : jsval) (s : session) :
  let b := {| text := as_field v; character := selectedCharacter (ui s) |} in
  (∃ cfg r,
     fields_present b = true ∧
     lookup_character (to_property_key (character b)) = Some cfg ∧
     chat_completions_create openai (chat_args cfg (field_val (text b)))
       = Resolved r ∧
     generateResponse openai v s =
       (Fulfilled (VObj [("text", VStr r); ("character", config_name cfg)]),
        {| ui := ui s; uploads := uploads s;
           server_events := server_events s ++
             [ Lookup (to_property_key (character b));
               ChatCompletionsCreate (chat_args cfg (field_val (text b))) ] |}))
  ∨ (∃ evs,
       generateResponse openai v s =
         (Raised "Response generation failed",
          {| ui := ui s; uploads := uploads s;
             server_events := server_events s ++ evs |}) ∧
       ∀ e, e ∈ evs → resolved_call openai e = false).
Proof.
  intros b. rewrite generateResponse_run. cbv zeta. fold b.
  generalize (handle_served openai (PostRespond b) (uploads s)).
  generalize (run (handle openai (PostRespond b)) (uploads s)).
  intros r Hserved.
  inversion Hserved as
    [ | | | | b0 Hp | b0 Hp Hl | b0 cfg reply Hp Hl Hreply
      | b0 cfg m Hp Hl Hreply | | | | ]; subst; simpl.
  - right. exists []. split; [reflexivity|]. intros e He. by apply elem_of_nil in He.
  - right. eexists. split; [reflexivity|]. intros e He.
    apply elem_of_cons in He as [->|He]; [reflexivity|]. by apply elem_of_nil in He.
  - left. exists cfg, reply. repeat split; assumption || reflexivity.
  - right. eexists. split; [reflexivity|]. intros e He.
    repeat (apply elem_of_cons in He as [->|He]); try (by apply elem_of_nil in He);
      [reflexivity|].
    unfold resolved_call. simpl. simpl in Hreply. by rewrite Hreply.
Qed.

Lemma speakResponse_cases (v : jsval) (s : session) :
  let b := {| text := as_field v; character := selectedCharacter (ui s) |} in
  (∃ cfg buffer,
     fields_present b = true ∧
     lookup_character (to_property_key (character b)) = Some cfg ∧
     speech_create openai (speech_args cfg (field_val (text b)))
       = Resolved buffer ∧
     speakResponse openai play v s =
       (match play (VBuffer buffer) with
        | Ended => Fulfilled tt
        | Errored => Raised "error"
        | Silent => Pending
        end,
        {| ui := ui s; uploads := uploads s;
           server_events := server_events s ++
             [ Lookup (to_property_key (character b));
               SpeechCreate (speech_args cfg (field_val (text b))) ] |}))
  ∨ (∃ evs,
       speakResponse openai play v s =
         (Raised "TTS failed",
          {| ui := ui s; uploads := uploads s;
             server_events := server_events s ++ evs |}) ∧
       ∀ e, e ∈ evs → resolved_call openai e = false).
Proof.
  intros b. rewrite speakResponse_run. cbv zeta. fold b.
  generalize (handle_served openai (PostTts b) (uploads s)).
  generalize (run (handle openai (PostTts b)) (uploads s)).
  intros r Hserved.
  inversion Hserved as
    [ | | | | | | | | b0 Hp | b0 Hp Hl | b0 cfg buffer Hp Hl Hreply
      | b0 cfg m Hp Hl Hreply ]; subst; simpl.
  - right. exists []. split; [reflexivity|]. intros e He. by apply elem_of_nil in He.
  - right. eexists. split; [reflexivity|]. intros e He.
    apply elem_of_cons in He as [->|He]; [reflexivity|]. by apply elem_of_nil in He.
  - left. exists cfg, buffer. repeat split; assumption || reflexivity.
  - right. eexists. split; [reflexivity|]. intros e He.
    repeat (apply elem_of_cons in He as [->|He]); try (by apply elem_of_nil in He);
      [reflexivity|].
    unfold resolved_call. simpl. simpl in Hreply. by rewrite Hreply.
Qed.

End Stages.

Section Course.

Variable openai : provider.
Variable play : jsval → playback.
Variable staged : string.

(** [processAudio] as the sequence of its three awaits. *)
Lemma processAudio_steps (s : session) :
  processAudio openai play staged s =
  match transcribeAudio openai staged (over_ui begun s) with
  | (Fulfilled v, s1) =>
      match generateResponse openai v (over_ui (heard v) s1) with
      | (Fulfilled resp, s2) =>
          match speakResponse openai play (prop "text" resp)
                  (over_ui (answered (prop "text" resp)) s2) with
          | (Fulfilled _, s3) =>
              (Fulfilled tt, over_ui released (over_ui made_ready s3))
          | (Raised _, s3) =>
              (Fulfilled tt, over_ui released (over_ui apologised s3))
          | (Pending, s3) => (Pending, s3)
          end
      | (Raised _, s2) => (Fulfilled tt, over_ui released (over_ui apologised s2))
      | (Pending, s2) => (Pending, s2)
      end
  | (Raised _, s1) => (Fulfilled tt, over_ui released (over_ui apologised s1))
  | (Pending, s1) => (Pending, s1)
  end.
Proof.
  unfold processAudio, try_catch_finally, mbind, Js_bind, update, read_ui.
  cbv beta iota zeta.
  change (over_ui (updateStatus "⏳ Transcribing your message..." "processing")
            (over_ui (set_recordBtn_disabled true)
               (over_ui (set_isProcessing true) s)))
    with (over_ui begun s).
  destruct (transcribeAudio openai staged (over_ui begun s)) as [[v|e|] s1];
    [|reflexivity|reflexivity].
  change (over_ui _ (over_ui (addUserMessage v)
                       (over_ui (set_transcript v "block") s1)))
    with (over_ui (heard v) s1).
  destruct (generateResponse openai v (over_ui (heard v) s1)) as [[resp|e|] s2];
    [|reflexivity|reflexivity].
  change (over_ui (updateStatus "🔊 Speaking..." "speaking")
            (over_ui (addCharacterMessage (prop "text" resp)) s2))
    with (over_ui (answered (prop "text" resp)) s2).
  destruct (speakResponse openai play (prop "text" resp)
              (over_ui (answered (prop "text" resp)) s2)) as [[[]|e|] s3];
    reflexivity.
Qed.


Lemma generateResponse_replied (v : jsval) (s : session)
  (cfg : character_config) (r : string) :
  let b := {| text := as_field v; character := selectedCharacter (ui s) |} in
  fields_present b = true →
  lookup_character (to_property_key (character b)) = Some cfg →
  chat_completions_create openai (chat_args cfg (field_val (text b))) = Resolved r →
  generateResponse openai v s =
    (Fulfilled (VObj [("text", VStr r); ("character", config_name cfg)]),
     {| ui := ui s; uploads := uploads s;
        server_events := server_events s ++
          [ Lookup (to_property_key (character b));
            ChatCompletionsCreate (chat_args cfg (field_val (text b))) ] |}).
Proof.
  intros b Hp Hl Hreply. rewrite generateResponse_run. cbv zeta. fold b.
  cbn [handle]. rewrite (respond_run_call openai b _ cfg Hp Hl). cbv zeta.
  cbn [sent files_after events]. rewrite Hreply. reflexivity.
Qed.

Lemma generateResponse_missing (v : jsval) (s : session) :
  fields_present {| text := as_field v; character := selectedCharacter (ui s) |}
    = false →
  generateResponse openai v s =
    (Raised "Response generation failed",
     {| ui := ui s; uploads := uploads s;
        server_events := server_events s ++ [] |}).
Proof.
  intros Hp. rewrite generateResponse_run. cbv zeta. cbn [handle].
  rewrite (respond_run_missing openai _ _ Hp). reflexivity.
Qed.

Lemma speakResponse_spoken (v : jsval) (s : session)
  (cfg : character_config) (buffer : list Byte.byte) :
  let b := {| text := as_field v; character := selectedCharacter (ui s) |} in
  fields_present b = true →
  lookup_character (to_property_key (character b)) = Some cfg →
  speech_create openai (speech_args cfg (field_val (text b))) = Resolved buffer →
  speakResponse openai play v s =
    (match play (VBuffer buffer) with
     | Ended => Fulfilled tt
     | Errored => Raised "error"
     | Silent => Pending
     end,
     {| ui := ui s; uploads := uploads s;
        server_events := server_events s ++
          [ Lookup (to_property_key (character b));
            SpeechCreate (speech_args cfg (field_val (text b))) ] |}).
Proof.
  intros b Hp Hl Hreply. rewrite speakResponse_run. cbv zeta. fold b.
  cbn [handle]. rewrite (tts_run_call openai b _ cfg Hp Hl). cbv zeta.
  cbn [sent files_after events]. rewrite Hreply. reflexivity.
Qed.

Lemma speakResponse_missing (v : jsval) (s : session) :
  fields_present {| text := as_field v; character := selectedCharacter (ui s) |}
    = false →
  speakResponse openai play v s =
    (Raised "TTS failed",
     {| ui := ui s; uploads := uploads s;
        server_events := server_events s ++ [] |}).
Proof.
  intros Hp. rewrite speakResponse_run. cbv zeta. cbn [handle].
  rewrite (tts_run_missing openai _ _ Hp). reflexivity.
Qed.

Lemma staged_then_released (U : gset string) :
  ({[staged +:+ "." +:+ "webm"]} ∪ ({[staged]} ∪ U) ∖ {[staged]})
  ∖ {[staged +:+ "." +:+ "webm"]}
  = U ∖ {[staged]} ∖ {[staged +:+ "." +:+ "webm"]}.
Proof.
  apply set_eq. intros p.
  repeat (rewrite elem_of_difference || rewrite elem_of_union
          || rewrite elem_of_singleton).
  tauto.
Qed.

End Course.

Section Pipeline.

Variable openai : provider.
Variable play : jsval → playback.
Variable staged : string.

(** X14: the complete run. With a persona of the table selected, a
    non-empty transcript, a non-empty reply, all three provider calls
    resolved and the playback ended, [processAudio] settles with the page
    ready: the transcript and the reply are appended to the chat in that
    order, the record button is enabled again, the server made exactly the
    three calls in order, and the staged upload is gone from the
    directory. *)
Theorem pipeline_complete_run (s : session) (t c r : string) (cfg : persona)
  (buffer : list Byte.byte) :
  selectedCharacter (ui s) = Some c → CHARACTER_PROMPTS !! c = Some cfg →
  t ≠ EmptyString → r ≠ EmptyString →
  transcriptions_create openai (transcription_args (staged +:+ "." +:+ "webm"))
    = Resolved t →
  chat_completions_create openai (chat_args (Entry cfg) (VStr t)) = Resolved r →
  speech_create openai (speech_args (Entry cfg) (VStr r)) = Resolved buffer →
  play (VBuffer buffer) = Ended →
  ∃ s',
    processAudio openai play staged s = (Fulfilled tt, s') ∧
    statusDiv_textContent (ui s') = "✅ Ready to record" ∧
    chatMessages (ui s') =
      (chatMessages (ui s) ++
       [ {| className := "message user-message";
            content := InnerHTML "<strong>You:</strong> " (VStr t) |};
         {| className := "message character-message";
            content := InnerHTML ("<strong>" +:+ currentCharacterName (ui s)
                                  +:+ ":</strong> ") (VStr r) |} ])%list ∧
    isProcessing (ui s') = false ∧ recordBtn_disabled (ui s') = false ∧
    (∃ evs,
       server_events s' = (server_events s ++ evs)%list ∧
       provider_calls evs =
         [ TranscriptionsCreate (transcription_args (staged +:+ "." +:+ "webm"));
           ChatCompletionsCreate (chat_args (Entry cfg) (VStr t));
           SpeechCreate (speech_args (Entry cfg) (VStr r)) ]) ∧
    uploads s' = uploads s ∖ {[staged]} ∖ {[staged +:+ "." +:+ "webm"]}.
Proof.
  intros Hc Hcfg Ht Hr Htr Hchat Hspeech Hplay.
  assert (c ≠ EmptyString) as Hcne by exact (registry_id_nonempty c cfg Hcfg).
  assert (∀ x, x ≠ EmptyString →
               fields_present {| text := Some x; character := Some c |} = true)
    as Hpresent.
  { intros x Hx. unfold fields_present. cbn [text character field_val].
    by rewrite (truthy_nonempty x Hx), (truthy_nonempty c Hcne). }
  rewrite processAudio_steps, transcribeAudio_run. cbv zeta. rewrite Htr.
  rewrite (generateResponse_replied openai (VStr t) _ (Entry cfg) r);
    [ | cbv zeta; page_simpl; rewrite Hc; by apply Hpresent
      | cbv zeta; page_simpl; rewrite Hc; by apply lookup_entry
      | cbv zeta; page_simpl; exact Hchat ].
  change (prop "text" (VObj [("text", VStr r);
                             ("character", config_name (Entry cfg))]))
    with (VStr r).
  rewrite (speakResponse_spoken openai play (VStr r) _ (Entry cfg) buffer);
    [ | cbv zeta; page_simpl; rewrite Hc; by apply Hpresent
      | cbv zeta; page_simpl; rewrite Hc; by apply lookup_entry
      | cbv zeta; page_simpl; exact Hspeech ].
  rewrite Hplay. eexists. split; [reflexivity|]. page_simpl.
  split; [reflexivity|]. split; [by rewrite <- app_assoc|].
  split; [reflexivity|]. split; [reflexivity|]. split.
  - eexists. split; [by rewrite <- !app_assoc|]. rewrite Hc. reflexivity.
  - apply staged_then_released.
Qed.

(** X15: an empty transcript, or no character selected, ends in the error
    state. The transcript is still shown as the user's message, the error
    notice follows it, and the server is never asked to generate or to
    speak: its only provider call is the transcription. *)
Theorem pipeline_nothing_to_answer (s : session) (t : string) :
  transcriptions_create openai (transcription_args (staged +:+ "." +:+ "webm"))
    = Resolved t →
  t = EmptyString ∨ selectedCharacter (ui s) = None →
  ∃ s',
    processAudio openai play staged s = (Fulfilled tt, s') ∧
    statusDiv_textContent (ui s') = "❌ Error occurred. Please try again." ∧
    chatMessages (ui s') =
      (chatMessages (ui s) ++
       [ {| className := "message user-message";
            content := InnerHTML "<strong>You:</strong> " (VStr t) |};
         {| className := "message system-message";
            content := TextContent
                         "Error processing your message. Please try again." |} ])%list ∧
    isProcessing (ui s') = false ∧ recordBtn_disabled (ui s') = false ∧
    server_events s' =
      (server_events s ++
       [ RenameSync staged (staged +:+ "." +:+ "webm");
         TranscriptionsCreate (transcription_args (staged +:+ "." +:+ "webm"));
         UnlinkSync (staged +:+ "." +:+ "webm") ])%list.
Proof.
  intros Htr Hnothing.
  rewrite processAudio_steps, transcribeAudio_run. cbv zeta. rewrite Htr.
  rewrite (generateResponse_missing openai (VStr t)).
  - eexists. split; [reflexivity|]. page_simpl.
    split; [reflexivity|]. split; [by rewrite <- app_assoc|].
    split; [reflexivity|]. split; [reflexivity|]. by rewrite app_nil_r.
  - page_simpl. unfold fields_present. cbn [text character field_val].
    destruct Hnothing as [-> | ->]; [reflexivity | apply andb_false_r].
Qed.

(** X16: a reply that is the empty string is shown as the character's
    message and then the run ends in the error state: [/api/tts] turns the
    empty text away, so no synthesis call is made. *)
Theorem pipeline_empty_reply (s : session) (t c : string) (cfg : persona) :
  selectedCharacter (ui s) = Some c → CHARACTER_PROMPTS !! c = Some cfg →
  t ≠ EmptyString →
  transcriptions_create openai (transcription_args (staged +:+ "." +:+ "webm"))
    = Resolved t →
  chat_completions_create openai (chat_args (Entry cfg) (VStr t))
    = Resolved EmptyString →
  ∃ s',
    processAudio openai play staged s = (Fulfilled tt, s') ∧
    statusDiv_textContent (ui s') = "❌ Error occurred. Please try again." ∧
    chatMessages (ui s') =
      (chatMessages (ui s) ++
       [ {| className := "message user-message";
            content := InnerHTML "<strong>You:</strong> " (VStr t) |};
         {| className := "message character-message";
            content := InnerHTML ("<strong>" +:+ currentCharacterName (ui s)
                                  +:+ ":</strong> ") (VStr EmptyString) |};
         {| className := "message system-message";
            content := TextContent
                         "Error processing your message. Please try again." |} ])%list ∧
    (∃ evs,
       server_events s' = (server_events s ++ evs)%list ∧
       provider_calls evs =
         [ TranscriptionsCreate (transcription_args (staged +:+ "." +:+ "webm"));
           ChatCompletionsCreate (chat_args (Entry cfg) (VStr t)) ]).
Proof.
  intros Hc Hcfg Ht Htr Hchat.
  assert (c ≠ EmptyString) as Hcne by exact (registry_id_nonempty c cfg Hcfg).
  rewrite processAudio_steps, transcribeAudio_run. cbv zeta. rewrite Htr.
  rewrite (generateResponse_replied openai (VStr t) _ (Entry cfg) EmptyString);
    [ | cbv zeta; page_simpl; rewrite Hc; unfold fields_present;
        cbn [text character field_val];
        by rewrite (truthy_nonempty t Ht), (truthy_nonempty c Hcne)
      | cbv zeta; page_simpl; rewrite Hc; by apply lookup_entry
      | cbv zeta; page_simpl; exact Hchat ].
  change (prop "text" (VObj [("text", VStr EmptyString);
                             ("character", config_name (Entry cfg))]))
    with (VStr EmptyString).
  rewrite (speakResponse_missing openai play (VStr EmptyString));
    [|reflexivity].
  eexists. split; [reflexivity|]. page_simpl.
  split; [reflexivity|]. split; [by rewrite <- !app_assoc|].
  eexists. split; [by rewrite app_nil_r, <- !app_assoc|]. rewrite Hc. reflexivity.
Qed.


(** X17: when the provider rejects the transcription, the run ends in the
    error state with only the error notice added to the chat; the server is
    asked nothing more, and the upload is still in its directory, under its
    renamed path. *)
Theorem pipeline_transcription_rejected (s : session) (m : string) :
  transcriptions_create openai (transcription_args (staged +:+ "." +:+ "webm"))
    = Rejected m →
  ∃ s',
    processAudio openai play staged s = (Fulfilled tt, s') ∧
    statusDiv_textContent (ui s') = "❌ Error occurred. Please try again." ∧
    chatMessages (ui s') =
      (chatMessages (ui s) ++
       [ {| className := "message system-message";
            content := TextContent
                         "Error processing your message. Please try again." |} ])%list ∧
    isProcessing (ui s') = false ∧ recordBtn_disabled (ui s') = false ∧
    (∃ evs,
       server_events s' = (server_events s ++ evs)%list ∧
       provider_calls evs =
         [ TranscriptionsCreate (transcription_args (staged +:+ "." +:+ "webm")) ]) ∧
    (staged +:+ "." +:+ "webm") ∈ uploads s'.
Proof.
  intros Htr.
  rewrite processAudio_steps, transcribeAudio_run. cbv zeta. rewrite Htr.
  eexists. split; [reflexivity|]. page_simpl.
  split; [reflexivity|]. split; [reflexivity|].
  split; [reflexivity|]. split; [reflexivity|]. split.
  - eexists. split; [reflexivity|].
    unfold catch_cleanup. cbn [path]. destruct (truthy (VStr staged)); reflexivity.
  - apply elem_of_union_l. by apply elem_of_singleton.
Qed.

(** X18: when all three requests succeed but the playback neither ends nor
    errors, [processAudio] never settles: the finally clause does not run,
    so the page stays in the speaking state with [isProcessing] set and the
    record button disabled, and no timer is scheduled. *)
Theorem pipeline_silent_playback_locks (s : session) (t c r : string)
  (cfg : persona) (buffer : list Byte.byte) :
  selectedCharacter (ui s) = Some c → CHARACTER_PROMPTS !! c = Some cfg →
  t ≠ EmptyString → r ≠ EmptyString →
  transcriptions_create openai (transcription_args (staged +:+ "." +:+ "webm"))
    = Resolved t →
  chat_completions_create openai (chat_args (Entry cfg) (VStr t)) = Resolved r →
  speech_create openai (speech_args (Entry cfg) (VStr r)) = Resolved buffer →
  play (VBuffer buffer) = Silent →
  ∃ s',
    processAudio openai play staged s = (Pending, s') ∧
    statusDiv_textContent (ui s') = "🔊 Speaking..." ∧
    isProcessing (ui s') = true ∧ recordBtn_disabled (ui s') = true ∧
    timeouts (ui s') = timeouts (ui s).
Proof.
  intros Hc Hcfg Ht Hr Htr Hchat Hspeech Hplay.
  assert (c ≠ EmptyString) as Hcne by exact (registry_id_nonempty c cfg Hcfg).
  assert (∀ x, x ≠ EmptyString →
               fields_present {| text := Some x; character := Some c |} = true)
    as Hpresent.
  { intros x Hx. unfold fields_present. cbn [text character field_val].
    by rewrite (truthy_nonempty x Hx), (truthy_nonempty c Hcne). }
  rewrite processAudio_steps, transcribeAudio_run. cbv zeta. rewrite Htr.
  rewrite (generateResponse_replied openai (VStr t) _ (Entry cfg) r);
    [ | cbv zeta; page_simpl; rewrite Hc; by apply Hpresent
      | cbv zeta; page_simpl; rewrite Hc; by apply lookup_entry
      | cbv zeta; page_simpl; exact Hchat ].
  change (prop "text" (VObj [("text", VStr r);
                             ("character", config_name (Entry cfg))]))
    with (VStr r).
  rewrite (speakResponse_spoken openai play (VStr r) _ (Entry cfg) buffer);
    [ | cbv zeta; page_simpl; rewrite Hc; by apply Hpresent
      | cbv zeta; page_simpl; rewrite Hc; by apply lookup_entry
      | cbv zeta; page_simpl; exact Hspeech ].
  rewrite Hplay. eexists. split; [reflexivity|]. page_simpl. repeat split.
Qed.

(** X19: if the playback always ends or errors, [processAudio] always
    settles, whatever the provider does, and whichever way it went the
    finally clause has run: [isProcessing] is reset, the record button is
    enabled and one 3000 ms timer is scheduled. *)
Theorem pipeline_settles (s : session) :
  (∀ v, play v ≠ Silent) →
  ∃ s',
    processAudio openai play staged s = (Fulfilled tt, s') ∧
    isProcessing (ui s') = false ∧ recordBtn_disabled (ui s') = false ∧
    timeouts (ui s') = (timeouts (ui s) ++ [3000])%list.
Proof.
  intros Hplay.
  rewrite processAudio_steps, transcribeAudio_run. cbv zeta.
  destruct (transcriptions_create openai _) as [t|m];
    [|eexists; split; [reflexivity|]; page_simpl; repeat split].
  match goal with
  | |- context [generateResponse openai ?v ?s0] =>
      destruct (generateResponse_cases openai v s0)
        as [(cfg & r & _ & _ & _ & ->)|(evs & -> & _)]
  end;
    [|eexists; split; [reflexivity|]; page_simpl; repeat split].
  match goal with
  | |- context [speakResponse openai play ?v ?s0] =>
      destruct (speakResponse_cases openai play v s0)
        as [(cfg' & buffer & _ & _ & _ & ->)|(evs & -> & _)]
  end;
    [|eexists; split; [reflexivity|]; page_simpl; repeat split].
  pose proof (Hplay (VBuffer buffer)) as Hsettled.
  destruct (play (VBuffer buffer)); [| |contradiction];
    eexists; (split; [reflexivity|]); page_simpl; repeat split.
Qed.

(** X20: the page reports that it is ready only after a complete run: the
    server made exactly three provider calls, for the transcription, the
    generation and the synthesis in that order, and each of them
    resolved. *)
Theorem pipeline_ready_only_after_three_calls (s : session) :
  statusDiv_textContent (ui (snd (processAudio openai play staged s)))
    = "✅ Ready to record" →
  ∃ evs a1 a2 a3,
    server_events (snd (processAudio openai play staged s))
      = (server_events s ++ evs)%list ∧
    provider_calls evs =
      [TranscriptionsCreate a1; ChatCompletionsCreate a2; SpeechCreate a3] ∧
    resolved_call openai (TranscriptionsCreate a1) = true ∧
    resolved_call openai (ChatCompletionsCreate a2) = true ∧
    resolved_call openai (SpeechCreate a3) = true.
Proof.
  rewrite processAudio_steps, transcribeAudio_run. cbv zeta.
  destruct (transcriptions_create openai _) as [t|m] eqn:Htr;
    [|page_simpl; intros Hready; discriminate Hready].
  match goal with
  | |- context [generateResponse openai ?v ?s0] =>
      destruct (generateResponse_cases openai v s0)
        as [(cfg & r & _ & _ & Hchat & ->)|(evs & -> & _)]
  end;
    [|page_simpl; intros Hready; discriminate Hready].
  match goal with
  | |- context [speakResponse openai play ?v ?s0] =>
      destruct (speakResponse_cases openai play v s0)
        as [(cfg' & buffer & _ & _ & Hspeech & ->)|(evs & -> & _)]
  end;
    [|page_simpl; intros Hready; discriminate Hready].
  destruct (play (VBuffer buffer)); page_simpl; intros Hready;
    try discriminate Hready.
  eexists. eexists. eexists. eexists.
  split; [by rewrite <- !app_assoc|].
  split; [reflexivity|].
  unfold resolved_call, rejection, is_provider_call.
  rewrite Htr. split; [reflexivity|]. split.
  - revert Hchat. page_simpl. intros Hchat. by rewrite Hchat.
  - revert Hspeech. page_simpl. intros Hspeech. by rewrite Hspeech.
Qed.

End Pipeline.

Lemma pipeline_complete_run_witness :
  CHARACTER_PROMPTS !! "sansa" = Some sansa ∧
  ∃ s',
    processAudio (scripted (Resolved "Who rules the North?")
                    (Resolved "I do.") (Resolved [Byte.xff; Byte.xfb]))
      (λ _, Ended) "uploads/3f9c2a" (fresh_session (chosen "sansa" "Sansa Stark"))
    = (Fulfilled tt, s') ∧
    statusDiv_textContent (ui s') = "✅ Ready to record".
Proof.
  split; [reflexivity|].
  destruct (pipeline_complete_run
              (scripted (Resolved "Who rules the North?") (Resolved "I do.")
                 (Resolved [Byte.xff; Byte.xfb]))
              (λ _, Ended) "uploads/3f9c2a"
              (fresh_session (chosen "sansa" "Sansa Stark"))
              "Who rules the North?" "sansa" "I do." sansa [Byte.xff; Byte.xfb])
    as (s' & Hrun & Hready & _);
    [reflexivity | reflexivity | discriminate | discriminate | reflexivity
    | reflexivity | reflexivity | reflexivity |].
  exists s'. split; [exact Hrun | exact Hready].
Defined.

Lemma pipeline_nothing_to_answer_witness :
  ∃ s',
    processAudio (scripted (Resolved EmptyString) (Resolved "I do.")
                    (Resolved [Byte.xff; Byte.xfb]))
      (λ _, Ended) "uploads/3f9c2a" (fresh_session (chosen "sansa" "Sansa Stark"))
    = (Fulfilled tt, s') ∧
    statusDiv_textContent (ui s') = "❌ Error occurred. Please try again.".
Proof.
  destruct (pipeline_nothing_to_answer
              (scripted (Resolved EmptyString) (Resolved "I do.")
                 (Resolved [Byte.xff; Byte.xfb]))
              (λ _, Ended) "uploads/3f9c2a"
              (fresh_session (chosen "sansa" "Sansa Stark")) EmptyString)
    as (s' & Hrun & Herror & _); [reflexivity | left; reflexivity |].
  exists s'. split; [exact Hrun | exact Herror].
Defined.

Lemma pipeline_empty_reply_witness :
  CHARACTER_PROMPTS !! "jon-snow" = Some jon_snow ∧
  ∃ s',
    processAudio (scripted (Resolved "Speak.") (Resolved EmptyString)
                    (Resolved [Byte.xff; Byte.xfb]))
      (λ _, Ended) "uploads/3f9c2a" (fresh_session (chosen "jon-snow" "Jon Snow"))
    = (Fulfilled tt, s') ∧
    statusDiv_textContent (ui s') = "❌ Error occurred. Please try again.".
Proof.
  split; [reflexivity|].
  destruct (pipeline_empty_reply
              (scripted (Resolved "Speak.") (Resolved EmptyString)
                 (Resolved [Byte.xff; Byte.xfb]))
              (λ _, Ended) "uploads/3f9c2a"
              (fresh_session (chosen "jon-snow" "Jon Snow"))
              "Speak." "jon-snow" jon_snow)
    as (s' & Hrun & Herror & _);
    [reflexivity | reflexivity | discriminate | reflexivity | reflexivity |].
  exists s'. split; [exact Hrun | exact Herror].
Defined.

Lemma pipeline_transcription_rejected_witness :
  ∃ s',
    processAudio (rejecting "429 quota exceeded") (λ _, Ended) "uploads/3f9c2a"
      (fresh_session (chosen "sansa" "Sansa Stark"))
    = (Fulfilled tt, s') ∧
    "uploads/3f9c2a.webm" ∈ uploads s'.
Proof.
  destruct (pipeline_transcription_rejected (rejecting "429 quota exceeded")
              (λ _, Ended) "uploads/3f9c2a"
              (fresh_session (chosen "sansa" "Sansa Stark")) "429 quota exceeded")
    as (s' & Hrun & _ & _ & _ & _ & _ & Hleft); [reflexivity|].
  exists s'. split; [exact Hrun | exact Hleft].
Defined.

Lemma pipeline_silent_playback_locks_witness :
  CHARACTER_PROMPTS !! "daenerys" = Some daenerys ∧
  ∃ s',
    processAudio (scripted (Resolved "Who are you?") (Resolved "Dracarys.")
                    (Resolved [Byte.xff; Byte.xfb]))
      (λ _, Silent) "uploads/3f9c2a"
      (fresh_session (chosen "daenerys" "Daenerys Targaryen"))
    = (Pending, s') ∧
    isProcessing (ui s') = true ∧ recordBtn_disabled (ui s') = true.
Proof.
  split; [reflexivity|].
  destruct (pipeline_silent_playback_locks
              (scripted (Resolved "Who are you?") (Resolved "Dracarys.")
                 (Resolved [Byte.xff; Byte.xfb]))
              (λ _, Silent) "uploads/3f9c2a"
              (fresh_session (chosen "daenerys" "Daenerys Targaryen"))
              "Who are you?" "daenerys" "Dracarys." daenerys [Byte.xff; Byte.xfb])
    as (s' & Hrun & _ & Hprocessing & Hdisabled & _);
    [reflexivity | reflexivity | discriminate | discriminate | reflexivity
    | reflexivity | reflexivity | reflexivity |].
  exists s'. split; [exact Hrun|]. split; [exact Hprocessing | exact Hdisabled].
Defined.

Lemma pipeline_settles_witness :
  ∃ s',
    processAudio (rejecting "429 quota exceeded") (λ _, Errored) "uploads/3f9c2a"
      (fresh_session (chosen "sansa" "Sansa Stark"))
    = (Fulfilled tt, s') ∧
    isProcessing (ui s') = false ∧ recordBtn_disabled (ui s') = false.
Proof.
  destruct (pipeline_settles (rejecting "429 quota exceeded") (λ _, Errored)
              "uploads/3f9c2a" (fresh_session (chosen "sansa" "Sansa Stark")))
    as (s' & Hrun & Hprocessing & Hdisabled & _); [intros v; discriminate|].
  exists s'. split; [exact Hrun|]. split; [exact Hprocessing | exact Hdisabled].
Defined.

Lemma pipeline_ready_only_after_three_calls_witness :
  statusDiv_textContent
    (ui (snd (processAudio
                (scripted (Resolved "Who rules the North?") (Resolved "I do.")
                   (Resolved [Byte.xff; Byte.xfb]))
                (λ _, Ended) "uploads/3f9c2a"
                (fresh_session (chosen "sansa" "Sansa Stark")))))
    = "✅ Ready to record" ∧
  ∃ evs a1 a2 a3,
    server_events
      (snd (processAudio
              (scripted (Resolved "Who rules the North?") (Resolved "I do.")
                 (Resolved [Byte.xff; Byte.xfb]))
              (λ _, Ended) "uploads/3f9c2a"
              (fresh_session (chosen "sansa" "Sansa Stark"))))
      = (server_events (fresh_session (chosen "sansa" "Sansa Stark")) ++ evs)%list ∧
    provider_calls evs =
      [TranscriptionsCreate a1; ChatCompletionsCreate a2; SpeechCreate a3].
Proof.
  assert (statusDiv_textContent
            (ui (snd (processAudio
                        (scripted (Resolved "Who rules the North?")
                           (Resolved "I do.") (Resolved [Byte.xff; Byte.xfb]))
                        (λ _, Ended) "uploads/3f9c2a"
                        (fresh_session (chosen "sansa" "Sansa Stark")))))
          = "✅ Ready to record") as Hready by (vm_compute; reflexivity).
  split; [exact Hready|].
  destruct (pipeline_ready_only_after_three_calls _ _ _ _ Hready)
    as (evs & a1 & a2 & a3 & Hevents & Hcalls & _).
  exists evs, a1, a2, a3. split; [exact Hevents | exact Hcalls].
Defined.

(** X21: whichever way a run goes, [processAudio] only appends to the chat,
    at most three messages, and never changes which character is
    selected or how it is named. *)
Theorem pipeline_keeps_history (openai : provider) (play : jsval → playback)
  (staged : string) (s : session) :
  ∃ added,
    chatMessages (ui (snd (processAudio openai play staged s)))
      = (chatMessages (ui s) ++ added)%list ∧
    (length added ≤ 3)%nat ∧
    selectedCharacter (ui (snd (processAudio openai play staged s)))
      = selectedCharacter (ui s) ∧
    currentCharacterName (ui (snd (processAudio openai play staged s)))
      = currentCharacterName (ui s).
Proof.
  rewrite processAudio_steps, transcribeAudio_run. cbv zeta.
  destruct (transcriptions_create openai _) as [t|m];
    [|page_simpl; eexists; split; [reflexivity|]; simpl; repeat split; lia].
  match goal with
  | |- context [generateResponse openai ?v ?s0] =>
      destruct (generateResponse_cases openai v s0)
        as [(cfg & r & _ & _ & _ & ->)|(evs & -> & _)]
  end;
    [|page_simpl; eexists; split; [by rewrite <- !app_assoc|]; simpl;
      repeat split; lia].
  match goal with
  | |- context [speakResponse openai play ?v ?s0] =>
      destruct (speakResponse_cases openai play v s0)
        as [(cfg' & buffer & _ & _ & _ & ->)|(evs & -> & _)]
  end;
    [|page_simpl; eexists; split; [by rewrite <- !app_assoc|]; simpl;
      repeat split; lia].
  destruct (play (VBuffer buffer)); page_simpl; eexists;
    (split; [by rewrite <- !app_assoc|]); simpl; repeat split; lia.
Qed.
